(** * The render manager of generator-assets: scheduler model and properties

    A shallow embedding of [src/lib/rendermanager.js].  The manager object,
    the Node timer queue, the Q deferreds handed to submitters and the
    promise chains that [_processWorkSet] attaches to each started render
    are explicit state; every method is a function on that state in a small
    state-and-exception monad; the event loop is a step function driven by
    a list of events. *)

From Stdlib Require Import List NArith ZArith Arith String Bool Lia.
From Equations Require Import Equations.
Import ListNotations.
Open Scope string_scope.
Open Scope list_scope.

(** ** Plain JavaScript objects used as maps

    The manager keeps its collections in plain objects keyed by component
    id or document id.  Ids are numbers (the source formats them with %d);
    a key that is an array index (below 2^32 - 1) is enumerated by
    [Object.keys] in ascending numeric order before all other keys, which
    come in insertion order.  The association list is kept in enumeration
    order, so [keys] is the projection on the first components. *)
Module JSObject.

Definition t (V : Type) : Type := list (N * V).

Definition is_array_index (k : N) : bool := (k <? 4294967295)%N.

Definition empty {V} : t V := [].

Fixpoint hasOwnProperty {V} (k : N) (o : t V) : bool :=
  match o with
  | [] => false
  | (k', _) :: r => if (k =? k')%N then true else hasOwnProperty k r
  end.

Fixpoint get {V} (k : N) (o : t V) : option V :=
  match o with
  | [] => None
  | (k', v) :: r => if (k =? k')%N then Some v else get k r
  end.

(** [o[k] = v]: an existing property keeps its place, a new array index
    is placed in numeric order, any other new key goes last. *)
Fixpoint set {V} (k : N) (v : V) (o : t V) : t V :=
  match o with
  | [] => [(k, v)]
  | (k', v') :: r =>
      if (k =? k')%N then (k, v) :: r
      else if is_array_index k && (negb (is_array_index k') || (k <? k')%N)
           then (k, v) :: (k', v') :: r
           else (k', v') :: set k v r
  end.

(** [delete o[k]] *)
Fixpoint delete {V} (k : N) (o : t V) : t V :=
  match o with
  | [] => []
  | (k', v') :: r =>
      if (k =? k')%N then delete k r else (k', v') :: delete k r
  end.

Definition keys {V} (o : t V) : list N := map fst o.

End JSObject.

Definition Obj (V : Type) : Type := JSObject.t V.

(** ** Values that cross the manager's interface *)

(** The collaborators' objects, with the fields the manager reads. *)
Record Document := { doc_id : N }.
Record Layer := { layer_id : N }.
Record Component := { extension : string }.

Record Bounds := { top : Z; left : Z; bottom : Z; right : Z }.
Record PixmapInfo := { bounds : Bounds }.

(** What a renderer's [render] resolves with, and what a rejected promise
    carries (the error's stack, the only part the manager reads). *)
Definition Artifact := string.
Definition Failure := string.

(** Handles created outside the manager: timers of [setTimeout], renderer
    objects of [createPixmapRenderer], and the external asynchronous calls
    whose promises are still unsettled. *)
Definition Timer := nat.
Definition Renderer := nat.
Definition Op := nat.

(** A Q deferred is a cell of the deferred store; jobs hold a reference. *)
Definition DeferredRef := nat.

Inductive PromiseState :=
| Pending
| Fulfilled (value : Artifact)
| Rejected (reason : option Failure).

(** The job record that [render] builds. *)
Record Job := {
  deferred : DeferredRef;
  document : Document;
  layer : Layer;
  component : Component
}.

Inductive JSError :=
| TypeError
| Error (message : string).

(** The fields of a [RenderManager] instance that the scheduler uses.
    [_workSet] and [_document] are [null] on the prototype ([None]). *)
Record RenderManager := {
  _pixmapRenderers : Obj Renderer;
  _pending : Obj Job;
  _working : Obj Job;
  _changeTimer : option Timer;
  _workSet : option (Obj Job);
  _document : option unit
}.

(** What [_renderComponent] returns: the promise of a renderer's [render],
    or the promise of [getPixmap] with the [then] callback that will call
    [render] on the bounds. *)
Inductive Awaiting :=
| AwaitRender (op : Op)
| AwaitBounds (op : Op) (d : Document) (l : Layer) (c : Component).

(** The [.fail(...).finally(...)] chain that [_processWorkSet] attaches to
    that promise; the handlers close over [componentId] and [layer]. *)
Record Chain := {
  chain_awaits : Awaiting;
  chain_componentId : N;
  chain_layer : Layer
}.

(** Calls that leave the manager, and the entry into [_processWorkSet]
    (recorded for the timing properties). *)
Inductive Effect :=
| ConsoleLog (format : string) (args : list N)
| ConsoleWarn (message : string) (layerId : N) (stack : Failure)
| SetTimeout (t : Timer) (delay : N)
| ProcessWorkSet
| CreatePixmapRenderer (d : Document) (r : Renderer)
| GetPixmap (documentId layerId : N) (boundsOnly : bool) (op : Op)
| RendererRender (r : Renderer) (l : Layer) (c : Component)
                 (exactBounds : option Bounds) (op : Op)
| DocumentOff (event : string).

Record ArmedTimer := {
  timer_handle : Timer;
  armed_at : N;
  timer_delay : N
}.

(** The manager together with the runtime around it.  [trace] lists the
    effects with the clock value at which each happened, latest first. *)
Record World := {
  this : RenderManager;
  now : N;
  timers : list ArmedTimer;
  next_timer : Timer;
  deferreds : list PromiseState;
  chains : list Chain;
  next_op : Op;
  next_renderer : Renderer;
  trace : list (N * Effect)
}.

(** ** Field updates *)

Definition set_pixmapRenderers (x : Obj Renderer) (m : RenderManager) :=
  {| _pixmapRenderers := x; _pending := _pending m; _working := _working m;
     _changeTimer := _changeTimer m; _workSet := _workSet m;
     _document := _document m |}.

Definition set_pending (x : Obj Job) (m : RenderManager) :=
  {| _pixmapRenderers := _pixmapRenderers m; _pending := x;
     _working := _working m; _changeTimer := _changeTimer m;
     _workSet := _workSet m; _document := _document m |}.

Definition set_working (x : Obj Job) (m : RenderManager) :=
  {| _pixmapRenderers := _pixmapRenderers m; _pending := _pending m;
     _working := x; _changeTimer := _changeTimer m;
     _workSet := _workSet m; _document := _document m |}.

Definition set_changeTimer (x : option Timer) (m : RenderManager) :=
  {| _pixmapRenderers := _pixmapRenderers m; _pending := _pending m;
     _working := _working m; _changeTimer := x;
     _workSet := _workSet m; _document := _document m |}.

Definition set_workSet (x : option (Obj Job)) (m : RenderManager) :=
  {| _pixmapRenderers := _pixmapRenderers m; _pending := _pending m;
     _working := _working m; _changeTimer := _changeTimer m;
     _workSet := x; _document := _document m |}.

Definition with_this (f : RenderManager -> RenderManager) (w : World) :=
  {| this := f (this w); now := now w; timers := timers w;
     next_timer := next_timer w; deferreds := deferreds w;
     chains := chains w; next_op := next_op w;
     next_renderer := next_renderer w; trace := trace w |}.

Definition with_now (x : N) (w : World) :=
  {| this := this w; now := x; timers := timers w;
     next_timer := next_timer w; deferreds := deferreds w;
     chains := chains w; next_op := next_op w;
     next_renderer := next_renderer w; trace := trace w |}.

Definition with_timers (x : list ArmedTimer) (w : World) :=
  {| this := this w; now := now w; timers := x;
     next_timer := next_timer w; deferreds := deferreds w;
     chains := chains w; next_op := next_op w;
     next_renderer := next_renderer w; trace := trace w |}.

Definition with_next_timer (x : Timer) (w : World) :=
  {| this := this w; now := now w; timers := timers w;
     next_timer := x; deferreds := deferreds w;
     chains := chains w; next_op := next_op w;
     next_renderer := next_renderer w; trace := trace w |}.

Definition with_deferreds (x : list PromiseState) (w : World) :=
  {| this := this w; now := now w; timers := timers w;
     next_timer := next_timer w; deferreds := x;
     chains := chains w; next_op := next_op w;
     next_renderer := next_renderer w; trace := trace w |}.

Definition with_chains (x : list Chain) (w : World) :=
  {| this := this w; now := now w; timers := timers w;
     next_timer := next_timer w; deferreds := deferreds w;
     chains := x; next_op := next_op w;
     next_renderer := next_renderer w; trace := trace w |}.

Definition with_next_op (x : Op) (w : World) :=
  {| this := this w; now := now w; timers := timers w;
     next_timer := next_timer w; deferreds := deferreds w;
     chains := chains w; next_op := x;
     next_renderer := next_renderer w; trace := trace w |}.

Definition with_next_renderer (x : Renderer) (w : World) :=
  {| this := this w; now := now w; timers := timers w;
     next_timer := next_timer w; deferreds := deferreds w;
     chains := chains w; next_op := next_op w;
     next_renderer := x; trace := trace w |}.

Definition with_trace (x : list (N * Effect)) (w : World) :=
  {| this := this w; now := now w; timers := timers w;
     next_timer := next_timer w; deferreds := deferreds w;
     chains := chains w; next_op := next_op w;
     next_renderer := next_renderer w; trace := x |}.

(** ** The monad of method bodies

    A method runs on the world and either returns or throws; what it wrote
    before throwing stays written. *)
Inductive Completion (A : Type) :=
| Return (a : A)
| Throw (e : JSError).
Arguments Return {A} a.
Arguments Throw {A} e.

Definition JS (A : Type) : Type := World -> Completion A * World.

Definition ret {A} (a : A) : JS A := fun w => (Return a, w).

Definition throw {A} (e : JSError) : JS A := fun w => (Throw e, w).

Definition bind {A B} (m : JS A) (k : A -> JS B) : JS B :=
  fun w =>
    match m w with
    | (Return a, w') => k a w'
    | (Throw e, w') => (Throw e, w')
    end.

Notation "x <- m ;; k" := (bind m (fun x => k))
  (at level 61, m at next level, right associativity).
Notation "m ;;; k" := (bind m (fun _ => k))
  (at level 61, right associativity).

Definition read {A} (f : World -> A) : JS A := fun w => (Return (f w), w).

Definition modify (f : World -> World) : JS unit := fun w => (Return tt, f w).

Definition exec {A} (m : JS A) (w : World) : World := snd (m w).

Definition emit (e : Effect) : JS unit :=
  modify (fun w => with_trace ((now w, e) :: trace w) w).

(** ** The runtime's primitives *)

(** [Q.defer()]: a fresh pending deferred. *)
Definition Q_defer : JS DeferredRef :=
  fun w => (Return (List.length (deferreds w)),
            with_deferreds (deferreds w ++ [Pending]) w).

(** Settling a deferred has an effect only while it is pending. *)
Fixpoint settle (ref : DeferredRef) (s : PromiseState)
         (store : list PromiseState) : list PromiseState :=
  match store, ref with
  | [], _ => []
  | p :: r, O => match p with Pending => s :: r | _ => p :: r end
  | p :: r, S n => p :: settle n s r
  end.

(** [deferred.reject()], with no reason. *)
Definition deferred_reject (ref : DeferredRef) : JS unit :=
  modify (fun w => with_deferreds (settle ref (Rejected None) (deferreds w)) w).

(** [setTimeout(callback, delay)].  The manager registers one callback
    only, the one that calls [_processWorkSet], so a timer stores no
    callback. *)
Definition setTimeout (delay : N) : JS Timer :=
  fun w =>
    let t := next_timer w in
    let armed := {| timer_handle := t; armed_at := now w;
                    timer_delay := delay |} in
    (Return t,
     with_trace ((now w, SetTimeout t delay) :: trace w)
       (with_next_timer (S t) (with_timers (timers w ++ [armed]) w))).

(** Modelled from the spec: [createPixmapRenderer(generator, document)] of
    ./renderer, a module of the repository outside the file modelled
    here.  The specification gives the factory as returning, for a
    document, a renderer object that exposes [render]; each call is
    modelled as returning a new renderer object and is recorded in the
    trace.  The specification also lets the construction fail; that case
    is not modelled, so the properties below speak of calls in which the
    factory returns. *)
Definition createPixmapRenderer (d : Document) : JS Renderer :=
  fun w =>
    let r := next_renderer w in
    (Return r,
     with_trace ((now w, CreatePixmapRenderer d r) :: trace w)
       (with_next_renderer (S r) w)).

(** Modelled from the spec: [render(layer, component, exactBounds)] of a
    renderer object of ./renderer, outside the file modelled here.  By
    the specification it resolves with a render artifact or fails with an
    error: the call starts an external operation and returns its promise,
    which the event loop settles later with either outcome.  A call that
    throws synchronously is not modelled.  Calling [render] on
    [undefined] throws. *)
Definition renderer_render (r : option Renderer) (l : Layer) (c : Component)
           (exactBounds : option Bounds) : JS Awaiting :=
  match r with
  | None => throw TypeError
  | Some r =>
      fun w =>
        let op := next_op w in
        (Return (AwaitRender op),
         with_trace ((now w, RendererRender r l c exactBounds op) :: trace w)
           (with_next_op (S op) w))
  end.

(** Modelled from the spec: [getPixmap(documentId, layerId, settings)] of
    the generator object handed to the constructor, whose code is
    outside the file modelled here.  By the specification the bounds query
    resolves to bounds information or fails: the call starts an external
    operation and returns its promise, which the event loop settles later
    with either outcome.  A call that throws synchronously is not
    modelled. *)
Definition generator_getPixmap (documentId layerId : N) (boundsOnly : bool)
  : JS Op :=
  fun w =>
    let op := next_op w in
    (Return op,
     with_trace ((now w, GetPixmap documentId layerId boundsOnly op) :: trace w)
       (with_next_op (S op) w)).

(** ** The methods of [RenderManager] *)

Definition CHANGE_DELAY : N := 1000.

(** [new RenderManager(generator)] in a runtime that has just started. *)
Definition RenderManager_new : RenderManager :=
  {| _pixmapRenderers := JSObject.empty;
     _pending := JSObject.empty;
     _working := JSObject.empty;
     _changeTimer := None;
     _workSet := None;
     _document := None |}.

Definition initial : World :=
  {| this := RenderManager_new; now := 0; timers := []; next_timer := 0;
     deferreds := []; chains := []; next_op := 0; next_renderer := 0;
     trace := [] |}.

Definition _getPixmapRenderer (d : Document) : JS (option Renderer) :=
  rs <- read (fun w => _pixmapRenderers (this w)) ;;
  (if negb (JSObject.hasOwnProperty (doc_id d) rs)
   then r <- createPixmapRenderer d ;;
        modify (with_this (fun m =>
          set_pixmapRenderers (JSObject.set (doc_id d) r (_pixmapRenderers m)) m))
   else ret tt) ;;;
  rs' <- read (fun w => _pixmapRenderers (this w)) ;;
  ret (JSObject.get (doc_id d) rs').

(** The [then] callback of the bounds query. *)
Definition on_bounds (d : Document) (l : Layer) (c : Component)
           (pixmapInfo : PixmapInfo) : JS Awaiting :=
  let exactBounds := bounds pixmapInfo in
  r <- _getPixmapRenderer d ;;
  renderer_render r l c (Some exactBounds).

Definition _renderComponent (d : Document) (l : Layer) (c : Component)
  : JS Awaiting :=
  let boundsOnly := true in
  emit (ConsoleLog "Rendering layer %d" [layer_id l]) ;;;
  if String.eqb (extension c) "svg"
  then r <- _getPixmapRenderer d ;;
       renderer_render r l c None
  else op <- generator_getPixmap (doc_id d) (layer_id l) boundsOnly ;;
       ret (AwaitBounds op d l c).

Definition render (d : Document) (l : Layer) (c : Component) (componentId : N)
  : JS DeferredRef :=
  ws <- read (fun w => _workSet (this w)) ;;
  match ws with
  | None => throw TypeError
  | Some o =>
      if JSObject.hasOwnProperty componentId o
      then throw (Error "Render already pending for component: %d")
      else
        q <- Q_defer ;;
        let job := {| deferred := q; document := d; layer := l;
                      component := c |} in
        modify (with_this (set_workSet (Some (JSObject.set componentId job o)))) ;;;
        ct <- read (fun w => _changeTimer (this w)) ;;
        match ct with
        | None => t <- setTimeout CHANGE_DELAY ;;
                  modify (with_this (set_changeTimer (Some t)))
        | Some _ => ret tt
        end ;;;
        ret q
  end.

(** The local [set] of [cancel] refers to one of the two collections, or
    stays [undefined]. *)
Inductive WhichSet := ThePending | TheWorking.

Definition the_set (s : WhichSet) (m : RenderManager) : Obj Job :=
  match s with ThePending => _pending m | TheWorking => _working m end.

Definition update_the_set (s : WhichSet) (f : Obj Job -> Obj Job)
           (m : RenderManager) : RenderManager :=
  match s with
  | ThePending => set_pending (f (_pending m)) m
  | TheWorking => set_working (f (_working m)) m
  end.

Definition cancel (componentId : N) : JS unit :=
  m <- read this ;;
  let set :=
    if JSObject.hasOwnProperty componentId (_pending m) then Some ThePending
    else if JSObject.hasOwnProperty componentId (_working m) then Some TheWorking
    else None in
  match set with
  | None => throw TypeError
  | Some s =>
      let job := JSObject.get componentId (the_set s m) in
      modify (with_this (update_the_set s (JSObject.delete componentId))) ;;;
      match job with
      | None => throw TypeError
      | Some j => deferred_reject (deferred j)
      end
  end.

Definition finish : JS unit :=
  modify (with_this (set_workSet (Some JSObject.empty))) ;;;
  doc <- read (fun w => _document (this w)) ;;
  match doc with
  | None => throw TypeError
  | Some _ => emit (DocumentOff "change")
  end.

(** The [keys.length > 0] branch of [_processWorkSet] up to its recursive
    call: move the job from the pending to the working collection, begin
    its render and attach the completion chain.  [componentId] is
    [keys[0]], so the lookup in [_pending] is defined. *)
Definition promote (componentId : N) : JS unit :=
  p <- read (fun w => _pending (this w)) ;;
  match JSObject.get componentId p with
  | None => throw TypeError
  | Some job =>
      modify (with_this (fun m =>
        set_pending (JSObject.delete componentId (_pending m)) m)) ;;;
      modify (with_this (fun m =>
        set_working (JSObject.set componentId job (_working m)) m)) ;;;
      let d := document job in
      let l := layer job in
      let c := component job in
      promise <- _renderComponent d l c ;;
      modify (fun w =>
        with_chains (chains w ++ [{| chain_awaits := promise;
                                     chain_componentId := componentId;
                                     chain_layer := l |}]) w)
  end.

(** The [else] branch: the log line and the cleared timer handle. *)
Definition quiesce : JS unit :=
  emit (ConsoleLog "Rendering quiesced." []) ;;;
  modify (with_this (set_changeTimer None)).

(** ** Facts about objects and frames needed to define the drain *)

Lemma delete_length_le {V} (k : N) (o : Obj V) :
  List.length (JSObject.delete k o) <= List.length o.
Proof.
  induction o as [|[k' v'] r IH]; simpl; [lia|].
  destruct (k =? k')%N; simpl; lia.
Qed.

Lemma delete_first_key_shrinks {V} (k : N) (ks : list N) (o : Obj V) :
  JSObject.keys o = k :: ks ->
  List.length (JSObject.delete k o) < List.length o.
Proof.
  destruct o as [|[k' v'] r]; simpl; [discriminate|].
  intros H. injection H as -> _. rewrite N.eqb_refl.
  pose proof (delete_length_le k r). lia.
Qed.

(** Unfolds the monadic code of the methods down to explicit worlds. *)
Ltac js_unfold :=
  unfold promote, quiesce, _renderComponent, on_bounds, _getPixmapRenderer,
    renderer_render, generator_getPixmap, createPixmapRenderer, setTimeout,
    deferred_reject, Q_defer, emit, modify, read, bind, ret, throw, exec in *.

Ltac js_run :=
  js_unfold; simpl;
  repeat (match goal with
          | |- context [match ?x with _ => _ end] =>
              lazymatch x with
              | context [match _ with _ => _ end] => fail
              | _ => destruct x eqn:?
              end
          end; simpl).

Lemma renderComponent_this_else d l c w r w' :
  _renderComponent d l c w = (r, w') ->
  _pending (this w') = _pending (this w) /\
  _working (this w') = _working (this w) /\
  _changeTimer (this w') = _changeTimer (this w) /\
  _workSet (this w') = _workSet (this w) /\
  _document (this w') = _document (this w).
Proof.
  js_run; intros H; inversion H; subst; simpl; auto.
Qed.

Lemma promote_pending k w u w' :
  promote k w = (Return u, w') ->
  _pending (this w') = JSObject.delete k (_pending (this w)).
Proof.
  js_run; intros H; inversion H; subst; simpl; auto.
Qed.

(** ** The drain *)

(** Keeps the equation between a scrutinee and the pattern it matched. *)
Definition inspect {A : Type} (a : A) : {b : A | a = b} := exist _ a eq_refl.

Section Scheduler.

(** [os.cpus().length], read once when the module is loaded. *)
Variable os_cpus_length : nat.

Definition MAX_JOBS : nat := os_cpus_length.

(** Every call of [_processWorkSet] is recorded in the trace on entry. *)
Definition enter (w : World) : World :=
  with_trace ((now w, ProcessWorkSet) :: trace w) w.

(** [_processWorkSet]: return if [_pending] has [MAX_JOBS] keys or more;
    otherwise promote the job of the first key and recurse, or, with no
    key left, log and clear the timer handle.  The recursion ends because
    each promotion deletes a key of [_pending]. *)
Equations? _processWorkSet (w : World) : Completion unit * World
  by wf (List.length (_pending (this w))) lt :=
  _processWorkSet w
    with (MAX_JOBS <=? List.length (JSObject.keys (_pending (this w))))%nat := {
    | true => (Return tt, enter w)
    | false with inspect (JSObject.keys (_pending (this w))) := {
        | exist _ [] _ => quiesce (enter w)
        | exist _ (componentId :: _) Hkeys
            with inspect (promote componentId (enter w)) := {
            | exist _ (Return _, w') Hpromote => _processWorkSet w'
            | exist _ (Throw e, w') _ => (Throw e, w') } } }.
Proof.
  apply promote_pending in Hpromote. simpl in Hpromote.
  rewrite Hpromote. eapply delete_first_key_shrinks, Hkeys.
Qed.

(** The [fail] handler of a chain. *)
Definition on_rejected (c : Chain) (err : Failure) : JS unit :=
  emit (ConsoleWarn "Failed to render layer " (layer_id (chain_layer c)) err).

(** The [finally] handler of a chain. *)
Definition on_finally (c : Chain) : JS unit :=
  modify (with_this (fun m =>
    set_working (JSObject.delete (chain_componentId c) (_working m)) m)) ;;;
  _processWorkSet.

(** The callback given to [setTimeout] by [render]. *)
Definition on_timeout : JS unit := _processWorkSet.

(** ** The event loop

    Between two turns the manager's caller may call a method, time may
    pass, an armed timer that is due may fire, and an external operation
    may settle, which runs the handlers attached to its promise.  An
    exception that escapes a turn leaves the world as the turn wrote
    it. *)
Inductive Event :=
| Call_render (d : Document) (l : Layer) (c : Component) (componentId : N)
| Call_cancel (componentId : N)
| Call_finish
| Elapse (ms : N)
| TimerFires (t : Timer)
| GetPixmapSettles (op : Op) (result : Failure + PixmapInfo)
| RenderSettles (op : Op) (result : Failure + Artifact).

Fixpoint take {A} (p : A -> bool) (l : list A) : option (A * list A) :=
  match l with
  | [] => None
  | x :: r =>
      if p x then Some (x, r)
      else match take p r with
           | Some (y, r') => Some (y, x :: r')
           | None => None
           end
  end.

Definition is_timer (t : Timer) (a : ArmedTimer) : bool :=
  Nat.eqb (timer_handle a) t.

Definition due (a : ArmedTimer) (clock : N) : bool :=
  (armed_at a + timer_delay a <=? clock)%N.

Definition awaits_render (op : Op) (c : Chain) : bool :=
  match chain_awaits c with
  | AwaitRender o => Nat.eqb o op
  | AwaitBounds _ _ _ _ => false
  end.

Definition awaits_bounds (op : Op) (c : Chain) : bool :=
  match chain_awaits c with
  | AwaitRender _ => false
  | AwaitBounds o _ _ _ => Nat.eqb o op
  end.

Definition settled (c : Chain) (failure : option Failure) : JS unit :=
  match failure with
  | Some err => on_rejected c err ;;; on_finally c
  | None => on_finally c
  end.

Definition step (e : Event) (w : World) : option World :=
  match e with
  | Call_render d l c componentId => Some (exec (render d l c componentId) w)
  | Call_cancel componentId => Some (exec (cancel componentId) w)
  | Call_finish => Some (exec finish w)
  | Elapse ms => Some (with_now (now w + ms)%N w)
  | TimerFires t =>
      match take (is_timer t) (timers w) with
      | Some (a, rest) =>
          if due a (now w)
          then Some (exec on_timeout (with_timers rest w))
          else None
      | None => None
      end
  | GetPixmapSettles op result =>
      match take (awaits_bounds op) (chains w) with
      | Some (c, rest) =>
          let w1 := with_chains rest w in
          match chain_awaits c, result with
          | AwaitBounds _ d l cmp, inr pixmapInfo =>
              match on_bounds d l cmp pixmapInfo w1 with
              | (Return promise, w2) =>
                  Some (with_chains
                          (chains w2 ++
                             [{| chain_awaits := promise;
                                 chain_componentId := chain_componentId c;
                                 chain_layer := chain_layer c |}]) w2)
              | (Throw _, w2) => Some (exec (settled c (Some "TypeError")) w2)
              end
          | AwaitBounds _ _ _ _, inl err => Some (exec (settled c (Some err)) w1)
          | AwaitRender _, _ => None
          end
      | None => None
      end
  | RenderSettles op result =>
      match take (awaits_render op) (chains w) with
      | Some (c, rest) =>
          let w1 := with_chains rest w in
          match result with
          | inr _ => Some (exec (settled c None) w1)
          | inl err => Some (exec (settled c (Some err)) w1)
          end
      | None => None
      end
  end.

Fixpoint run (es : list Event) (w : World) : option World :=
  match es with
  | [] => Some w
  | e :: es' =>
      match step e w with
      | Some w' => run es' w'
      | None => None
      end
  end.

(** The worlds a program can bring a new manager to. *)
Definition reachable (w : World) : Prop :=
  exists es, run es initial = Some w.

End Scheduler.

Arguments _processWorkSet : simpl never.

(** * Vocabulary of the properties *)

(** The parts of the world that neither a promotion nor the quiescent
    branch writes. *)
Definition undisturbed (w w' : World) : Prop :=
  deferreds w' = deferreds w /\
  _workSet (this w') = _workSet (this w) /\
  _document (this w') = _document (this w) /\
  now w' = now w /\
  timers w' = timers w /\
  next_timer w' = next_timer w.

(** Nothing is queued, nothing runs and no chain waits. *)
Definition quiet (w : World) : Prop :=
  _pending (this w) = [] /\ _working (this w) = [] /\ chains w = [].

Ltac js_methods := unfold render, cancel, finish, on_timeout, settled,
                     on_finally, on_rejected in *.

Definition is_finish (e : Event) : bool :=
  match e with Call_finish => true | _ => false end.

Definition no_finish (es : list Event) : bool :=
  forallb (fun e => negb (is_finish e)) es.

(** A component id is tracked when one of the manager's collections has
    an entry for it. *)
Definition tracked (componentId : N) (w : World) : bool :=
  match _workSet (this w) with
  | Some o => JSObject.hasOwnProperty componentId o
  | None => false
  end
  || JSObject.hasOwnProperty componentId (_pending (this w))
  || JSObject.hasOwnProperty componentId (_working (this w)).

Definition already_pending : JSError :=
  Error "Render already pending for component: %d".

Definition docA : Document := {| doc_id := 7 |}.
Definition layerA : Layer := {| layer_id := 3 |}.
Definition png : Component := {| extension := "png" |}.
Definition svg : Component := {| extension := "svg" |}.

(** The world after a list of events, when all of them are enabled. *)
Definition after (n : nat) (es : list Event) (w : World) : World :=
  match run n es w with Some w' => w' | None => w end.

(** The scenario of the specification on a host with two cores: ids 1, 2
    and 3 stand for the components A, B and C.  [finish] is called first,
    since [render] throws before it (see C2). *)
Definition scenario_ABC : list Event :=
  [Call_finish;
   Call_render docA layerA png 1;
   Call_render docA layerA svg 2;
   Call_render docA layerA png 3;
   Elapse 1000;
   TimerFires 0].

Definition jobA : Job :=
  {| deferred := 0; document := docA; layer := layerA; component := png |}.
Definition jobB : Job :=
  {| deferred := 1; document := docA; layer := layerA; component := svg |}.
Definition jobC : Job :=
  {| deferred := 2; document := docA; layer := layerA; component := png |}.

(** A manager whose [_pending] collection holds A, B and C, as the drain
    expects to find them. *)
Definition queued_ABC : World :=
  with_deferreds [Pending; Pending; Pending]
    (with_this (set_pending [(1%N, jobA); (2%N, jobB); (3%N, jobC)]) initial).

(** The pixmap renderer for a document: the cached one, or a new one
    created by the factory on first use. *)
Definition pixmap_renderer_for (d : Document) (w : World)
  : Renderer * list (N * Effect) :=
  match JSObject.get (doc_id d) (_pixmapRenderers (this w)) with
  | Some r => (r, [])
  | None => (next_renderer w, [(now w, CreatePixmapRenderer d (next_renderer w))])
  end.

Definition rendering_layer (l : Layer) (w : World) : N * Effect :=
  (now w, ConsoleLog "Rendering layer %d" [layer_id l]).

(** The world in which [promote] calls [_renderComponent]: the job has
    moved from [_pending] to [_working]. *)
Definition moved (componentId : N) (job : Job) (w : World) : World :=
  with_this (fun m =>
    set_working (JSObject.set componentId job (_working m))
      (set_pending (JSObject.delete componentId (_pending m)) m)) w.

Definition chain_for (componentId : N) (job : Job) (promise : Awaiting) : Chain :=
  {| chain_awaits := promise; chain_componentId := componentId;
     chain_layer := layer job |}.

(** The world after a drain on a four-core host has promoted A, B and C
    from [queued_ABC]: A and C wait for their bounds queries (operations 0
    and 2), B (svg) for its render (operation 1). *)
Definition running_ABC : World := exec (_processWorkSet 4) queued_ABC.

Definition unit_bounds : PixmapInfo :=
  {| bounds := {| top := 0; left := 0; bottom := 1; right := 1 |} |}.


(** The two steps of the [finally] handler before the drain, and the
    warning that the [fail] handler logs first when the render failed. *)
Definition remove_running (c : Chain) (w : World) : World :=
  with_this (fun m =>
    set_working (JSObject.delete (chain_componentId c) (_working m)) m) w.

Definition warned (c : Chain) (failure : option Failure) (w : World) : World :=
  match failure with
  | Some err =>
      with_trace ((now w, ConsoleWarn "Failed to render layer "
                            (layer_id (chain_layer c)) err) :: trace w) w
  | None => w
  end.

Definition failure_of {A} (result : Failure + A) : option Failure :=
  match result with inl err => Some err | inr _ => None end.

(** The world without its record of effects. *)
Definition erase (w : World) : World := with_trace [] w.

(** What the completion of the chain [c] found for operation [op] does,
    whatever [result] is: the chain is consumed, the [finally] handler
    deletes the job from [_working] and calls the drain, which returns
    in [w']; another outcome of the same render leads to the same world up
    to the logged warning; and if the drain finds fewer pending jobs than
    [MAX_JOBS] every pending job [y] is promoted. *)
Definition cleanup_then_drain (n : nat) (op : Op) (result : Failure + Artifact)
           (w : World) (c : Chain) (rest : list Chain) : Prop :=
  let before_drain :=
    remove_running c (warned c (failure_of result) (with_chains rest w)) in
  exists w',
    step n (RenderSettles op result) w = Some w' /\
    _processWorkSet n before_drain = (Return tt, w') /\
    chains before_drain = rest /\
    JSObject.hasOwnProperty (chain_componentId c)
      (_working (this before_drain)) = false /\
    (forall result',
       exists w'',
         step n (RenderSettles op result') w = Some w'' /\
         erase w'' = erase w') /\
    ((List.length (JSObject.keys (_pending (this w))) < MAX_JOBS n)%nat ->
     forall y, JSObject.hasOwnProperty y (_pending (this w)) = true ->
       JSObject.hasOwnProperty y (_working (this w')) = true /\
       JSObject.hasOwnProperty y (_pending (this w')) = false /\
       exists ch, In ch (chains w') /\ chain_componentId ch = y).

(** X (id 2) is running and Y (id 3) is pending on a two-core host. *)
Definition running_X_queued_Y : World :=
  with_this (set_pending [(3%N, jobC)])
    (exec (_processWorkSet 2) (with_this (set_pending [(2%N, jobB)]) queued_ABC)).

(** The effects of a drain and of a render attempt. *)
Definition dispatches (e : Effect) : bool :=
  match e with
  | ProcessWorkSet | GetPixmap _ _ _ _ | RendererRender _ _ _ _ _ => true
  | _ => false
  end.

(** Every dispatch effect in a trace comes after a [setTimeout], and at
    least [CHANGE_DELAY] after each [setTimeout] that precedes it. *)
Definition after_the_delay (t : N) (earlier : list (N * Effect)) : Prop :=
  (exists a tid, In (a, SetTimeout tid CHANGE_DELAY) earlier) /\
  (forall a tid d, In (a, SetTimeout tid d) earlier -> (a + CHANGE_DELAY <= t)%N).

Fixpoint timing (tr : list (N * Effect)) : Prop :=
  match tr with
  | [] => True
  | (t, e) :: earlier =>
      (dispatches e = true -> after_the_delay t earlier) /\ timing earlier
  end.

Definition armed_ok (w : World) : Prop :=
  (forall t e, In (t, e) (trace w) -> (t <= now w)%N) /\
  (timers w = [] \/
   exists a, timers w = [a] /\
     _changeTimer (this w) = Some (timer_handle a) /\
     timer_delay a = CHANGE_DELAY /\
     In (armed_at a, SetTimeout (timer_handle a) CHANGE_DELAY) (trace w) /\
     forall t tid d, In (t, SetTimeout tid d) (trace w) -> (t <= armed_at a)%N) /\
  timing (trace w).

(** ** Vocabulary of the further properties *)

(** The renderer cached for a document id. *)
Definition cached_renderer (documentId : N) (w : World) : option Renderer :=
  JSObject.get documentId (_pixmapRenderers (this w)).

Definition is_cancel (e : Event) : bool :=
  match e with Call_cancel _ => true | _ => false end.

Definition no_cancel (es : list Event) : bool :=
  forallb (fun e => negb (is_cancel e)) es.

(** The job that [render] records. *)
Definition job_of (q : DeferredRef) (d : Document) (l : Layer) (c : Component)
  : Job :=
  {| deferred := q; document := d; layer := l; component := c |}.

(** The state of a deferred of the store. *)
Definition deferred_state (q : DeferredRef) (w : World) : option PromiseState :=
  nth_error (deferreds w) q.

(** The collection in which [cancel] finds an id: [_pending] is looked at
    first, then [_working]. *)
Definition found_in (componentId : N) (m : RenderManager) : option WhichSet :=
  if JSObject.hasOwnProperty componentId (_pending m) then Some ThePending
  else if JSObject.hasOwnProperty componentId (_working m) then Some TheWorking
  else None.

Definition other_set (s : WhichSet) : WhichSet :=
  match s with ThePending => TheWorking | TheWorking => ThePending end.

(** X (id 2) is running, Y (id 1) and Z (id 3) are pending on a two-core
    host: [_pending] is at the cap. *)
Definition running_X_queued_YZ : World :=
  with_this (set_pending [(1%N, jobA); (3%N, jobC)])
    (exec (_processWorkSet 2) (with_this (set_pending [(2%N, jobB)]) queued_ABC)).

(** Some chain of the world is attached to the render of this id. *)
Definition has_chain_for (componentId : N) (w : World) : bool :=
  existsb (fun c => (chain_componentId c =? componentId)%N) (chains w).

(** The world after the part of [render] that records the job, and after
    the part that arms the timer. *)
Definition recorded (d : Document) (l : Layer) (c : Component)
           (componentId : N) (o : Obj Job) (w : World) : World :=
  with_this
    (set_workSet
       (Some (JSObject.set componentId
                (job_of (List.length (deferreds w)) d l c) o)))
    (with_deferreds (deferreds w ++ [Pending]) w).

Definition armed (w : World) : World :=
  match _changeTimer (this w) with
  | Some _ => w
  | None =>
      with_this (set_changeTimer (Some (next_timer w)))
        (with_trace ((now w, SetTimeout (next_timer w) CHANGE_DELAY) :: trace w)
           (with_next_timer (S (next_timer w))
              (with_timers
                 (timers w ++ [{| timer_handle := next_timer w;
                                  armed_at := now w;
                                  timer_delay := CHANGE_DELAY |}]) w)))
  end.

(** The world after the timer's callback on a manager with nothing
    pending. *)
Definition fired (n : nat) (w : World) : World :=
  if (MAX_JOBS n <=? 0)%nat then enter w
  else with_this (set_changeTimer None)
         (with_trace ((now w, ConsoleLog "Rendering quiesced." [])
                      :: (now w, ProcessWorkSet) :: trace w) w).

(** The effects a manager produces by itself: arming the timer, entering
    the drain, and the log line of the quiescent branch. *)
Definition own_effect (e : Effect) : bool :=
  match e with
  | SetTimeout _ delay => (delay =? CHANGE_DELAY)%N
  | ProcessWorkSet => true
  | ConsoleLog format args =>
      String.eqb format "Rendering quiesced."
      && match args with [] => true | _ => false end
  | _ => false
  end.

Definition is_setTimeout (e : Effect) : bool :=
  match e with SetTimeout _ _ => true | _ => false end.

Definition is_drain (e : Effect) : bool :=
  match e with ProcessWorkSet => true | _ => false end.

Definition count_effects (p : Effect -> bool) (w : World) : nat :=
  List.length (filter (fun te => p (snd te)) (trace w)).

(** The jobs of [_workSet] refer to deferreds of the store, each to its
    own. *)
Definition jobs_have_their_deferreds (w : World) : Prop :=
  forall o, _workSet (this w) = Some o ->
    (forall k job, JSObject.get k o = Some job ->
       (deferred job < List.length (deferreds w))%nat) /\
    (forall k k' job job',
       JSObject.get k o = Some job -> JSObject.get k' o = Some job' ->
       deferred job = deferred job' -> k = k').

(** The timer handle and the timer queue agree: [_changeTimer] is set
    exactly while a timer is armed, and it holds that timer's handle. *)
Definition handle_matches_timer (w : World) : Prop :=
  match _changeTimer (this w) with
  | None => timers w = []
  | Some t =>
      exists a, timers w = [a] /\ timer_handle a = t /\
                timer_delay a = CHANGE_DELAY
  end.

(** ** Vocabulary of the revised properties *)








(** * Properties *)

Lemma processWorkSet_unfold n w :
  _processWorkSet n w =
  if (MAX_JOBS n <=? List.length (JSObject.keys (_pending (this w))))%nat
  then (Return tt, enter w)
  else match JSObject.keys (_pending (this w)) with
       | [] => quiesce (enter w)
       | componentId :: _ =>
           match promote componentId (enter w) with
           | (Return _, w') => _processWorkSet n w'
           | (Throw e, w') => (Throw e, w')
           end
       end.
Proof.
  funelim (_processWorkSet n w);
    match goal with H : (_ <=? _)%nat = _ |- _ => rewrite H end;
    try match goal with H : JSObject.keys _ = _ |- _ => rewrite H end;
    try match goal with H : promote _ _ = _ |- _ => rewrite H end;
    reflexivity.
Qed.

(** ** Objects *)

Example keys_enumeration_order :
  JSObject.keys
    (JSObject.set 3 "d" (JSObject.set 8589934592 "c"
       (JSObject.set 2 "b" (JSObject.set 5 "a" JSObject.empty)))) =
  [2; 3; 5; 8589934592]%N.
Proof. reflexivity. Qed.

Lemma has_iff_get {V} (k : N) (o : Obj V) :
  JSObject.hasOwnProperty k o = true <-> exists v, JSObject.get k o = Some v.
Proof.
  induction o as [|[k' v'] r IH]; simpl.
  - split; [discriminate | intros [v H]; discriminate].
  - destruct (k =? k')%N; [|exact IH].
    split; eauto.
Qed.

Lemma get_set_same {V} (k : N) (v : V) (o : Obj V) :
  JSObject.get k (JSObject.set k v o) = Some v.
Proof.
  induction o as [|[k' v'] r IH]; simpl.
  - now rewrite N.eqb_refl.
  - destruct (k =? k')%N eqn:E; simpl.
    + now rewrite N.eqb_refl.
    + destruct (JSObject.is_array_index k &&
                (negb (JSObject.is_array_index k') || (k <? k')%N)); simpl.
      * now rewrite N.eqb_refl.
      * now rewrite E.
Qed.

Lemma has_set_same {V} (k : N) (v : V) (o : Obj V) :
  JSObject.hasOwnProperty k (JSObject.set k v o) = true.
Proof. apply has_iff_get. exists v. apply get_set_same. Qed.

Lemma has_set_other {V} (k k' : N) (v : V) (o : Obj V) :
  k <> k' ->
  JSObject.hasOwnProperty k (JSObject.set k' v o) = JSObject.hasOwnProperty k o.
Proof.
  intros Hne. apply N.eqb_neq in Hne.
  induction o as [|[k0 v0] r IH]; simpl.
  - now rewrite Hne.
  - destruct (k' =? k0)%N eqn:E; simpl.
    + apply N.eqb_eq in E. subst k0. now rewrite Hne.
    + destruct (JSObject.is_array_index k' &&
                (negb (JSObject.is_array_index k0) || (k' <? k0)%N)); simpl.
      * now rewrite Hne.
      * now rewrite IH.
Qed.

Lemma has_delete_same {V} (k : N) (o : Obj V) :
  JSObject.hasOwnProperty k (JSObject.delete k o) = false.
Proof.
  induction o as [|[k' v'] r IH]; simpl; [reflexivity|].
  destruct (k =? k')%N eqn:E; simpl; [exact IH|].
  now rewrite E.
Qed.

Lemma has_delete_other {V} (k k' : N) (o : Obj V) :
  k <> k' ->
  JSObject.hasOwnProperty k (JSObject.delete k' o) = JSObject.hasOwnProperty k o.
Proof.
  intros Hne.
  induction o as [|[k0 v0] r IH]; simpl; [reflexivity|].
  destruct (k' =? k0)%N eqn:E; simpl.
  - apply N.eqb_eq in E. subst k0.
    apply N.eqb_neq in Hne. now rewrite Hne.
  - now rewrite IH.
Qed.

Lemma first_key_defined {V} (k : N) (ks : list N) (o : Obj V) :
  JSObject.keys o = k :: ks -> exists v, JSObject.get k o = Some v.
Proof.
  destruct o as [|[k' v'] r]; simpl; [discriminate|].
  intros H. injection H as -> _. rewrite N.eqb_refl. eauto.
Qed.

Lemma has_keys {V} (k : N) (o : Obj V) :
  JSObject.hasOwnProperty k o = true <-> In k (JSObject.keys o).
Proof.
  induction o as [|[k' v'] r IH]; simpl.
  - split; [discriminate | tauto].
  - destruct (k =? k')%N eqn:E.
    + apply N.eqb_eq in E. subst. tauto.
    + apply N.eqb_neq in E. rewrite IH. split; [tauto|].
      intros [H|H]; [congruence | exact H].
Qed.

(** ** What a drain leaves alone *)

Lemma undisturbed_refl w : undisturbed w w.
Proof. repeat split. Qed.

Lemma undisturbed_trans w1 w2 w3 :
  undisturbed w1 w2 -> undisturbed w2 w3 -> undisturbed w1 w3.
Proof.
  unfold undisturbed. intros (?&?&?&?&?&?) (?&?&?&?&?&?).
  repeat split; congruence.
Qed.

Lemma enter_undisturbed w : undisturbed w (enter w).
Proof. repeat split. Qed.

Lemma quiesce_undisturbed w r w' :
  quiesce w = (r, w') -> undisturbed w w'.
Proof. js_run. intros H; inversion H; subst. repeat split. Qed.

Lemma promote_undisturbed k w r w' :
  promote k w = (r, w') -> undisturbed w w'.
Proof. js_run; intros H; inversion H; subst; repeat split. Qed.

Lemma processWorkSet_undisturbed n w :
  undisturbed w (snd (_processWorkSet n w)).
Proof.
  funelim (_processWorkSet n w); simpl.
  - apply enter_undisturbed.
  - eapply undisturbed_trans; [apply enter_undisturbed|].
    eapply quiesce_undisturbed, surjective_pairing.
  - eapply undisturbed_trans; [|eassumption].
    eapply undisturbed_trans; [apply enter_undisturbed|].
    eapply promote_undisturbed; eassumption.
  - eapply undisturbed_trans; [apply enter_undisturbed|].
    eapply promote_undisturbed; eassumption.
Qed.

(** ** A drain always returns *)

Lemma getPixmapRenderer_defined d w :
  exists r w', _getPixmapRenderer d w = (Return (Some r), w').
Proof.
  js_unfold; simpl.
  destruct (JSObject.hasOwnProperty (doc_id d) (_pixmapRenderers (this w)))
    eqn:E; simpl.
  - apply has_iff_get in E. destruct E as [r ->]. eauto.
  - rewrite get_set_same. eauto.
Qed.

Lemma renderComponent_returns d l c w :
  exists a w', _renderComponent d l c w = (Return a, w').
Proof.
  unfold _renderComponent. unfold bind at 1. unfold emit, modify.
  destruct (String.eqb (extension c) "svg").
  - unfold bind.
    destruct (getPixmapRenderer_defined d
      (with_trace ((now w, ConsoleLog "Rendering layer %d" [layer_id l])
                   :: trace w) w)) as (r & w' & ->).
    simpl. eauto.
  - js_unfold. simpl. eauto.
Qed.

Lemma on_bounds_returns d l c info w :
  exists a w', on_bounds d l c info w = (Return a, w').
Proof.
  unfold on_bounds, bind.
  destruct (getPixmapRenderer_defined d w) as (r & w' & ->).
  simpl. eauto.
Qed.

Lemma promote_returns k ks w :
  JSObject.keys (_pending (this w)) = k :: ks ->
  exists w', promote k w = (Return tt, w').
Proof.
  intros Hk. apply first_key_defined in Hk. destruct Hk as [job Hjob].
  unfold promote. unfold bind at 1. unfold read. rewrite Hjob.
  unfold bind at 1. unfold modify at 1. unfold bind at 1. unfold modify at 1.
  unfold bind.
  match goal with |- context [_renderComponent ?d ?l ?c ?w0] =>
    destruct (renderComponent_returns d l c w0) as (a & w1 & ->) end.
  unfold modify. eauto.
Qed.

Lemma processWorkSet_returns n w :
  fst (_processWorkSet n w) = Return tt.
Proof.
  funelim (_processWorkSet n w); simpl; auto.
  match goal with
  | Hk : JSObject.keys _ = ?k :: ?ks, Hp : promote _ _ = (Throw _, _) |- _ =>
      destruct (promote_returns k ks (enter w) Hk) as [w1 Hw1]; congruence
  end.
Qed.

(** ** Worlds reachable from a new manager

    No method writes a job into [_pending]: [render] records its job in
    [_workSet], and the drain reads [_pending].  So the pending and the
    working collection stay empty and no promise chain is ever attached. *)

Lemma processWorkSet_nothing_pending n w :
  _pending (this w) = [] ->
  _processWorkSet n w =
  if (MAX_JOBS n <=? 0)%nat then (Return tt, enter w) else quiesce (enter w).
Proof.
  intros H. rewrite processWorkSet_unfold, H. reflexivity.
Qed.

Lemma render_this d l c componentId w r w' :
  render d l c componentId w = (r, w') ->
  _pending (this w') = _pending (this w) /\
  _working (this w') = _working (this w) /\
  chains w' = chains w /\
  _document (this w') = _document (this w) /\
  now w' = now w.
Proof.
  js_methods. js_run; intros H; inversion H; subst; simpl; auto.
Qed.

Lemma cancel_untracked componentId w :
  JSObject.hasOwnProperty componentId (_pending (this w)) = false ->
  JSObject.hasOwnProperty componentId (_working (this w)) = false ->
  cancel componentId w = (Throw TypeError, w).
Proof.
  intros Hp Hw. js_methods. js_unfold. simpl. rewrite Hp, Hw. reflexivity.
Qed.

Lemma cancel_quiet componentId w :
  quiet w -> cancel componentId w = (Throw TypeError, w).
Proof.
  intros (Hp & Hw & _). apply cancel_untracked; [rewrite Hp | rewrite Hw]; reflexivity.
Qed.

Lemma finish_world w :
  exec finish w =
  match _document (this w) with
  | None => with_this (set_workSet (Some JSObject.empty)) w
  | Some _ =>
      with_trace ((now w, DocumentOff "change") :: trace w)
        (with_this (set_workSet (Some JSObject.empty)) w)
  end.
Proof.
  js_methods. js_unfold. simpl. destruct (_document (this w)); reflexivity.
Qed.

Lemma on_timeout_quiet n w :
  _pending (this w) = [] ->
  exec (on_timeout n) w =
  if (MAX_JOBS n <=? 0)%nat then enter w
  else with_this (set_changeTimer None)
         (with_trace ((now w, ConsoleLog "Rendering quiesced." [])
                      :: (now w, ProcessWorkSet) :: trace w) w).
Proof.
  intros H. unfold on_timeout, exec.
  rewrite processWorkSet_nothing_pending by exact H.
  destruct (MAX_JOBS n <=? 0)%nat; reflexivity.
Qed.

Lemma step_quiet n e w w' :
  quiet w -> step n e w = Some w' -> quiet w'.
Proof.
  intros Hq Hs. pose proof Hq as (Hp & Hw & Hc).
  destruct e; simpl in Hs.
  - injection Hs as <-. unfold exec.
    destruct (render d l c componentId w) as [r w1] eqn:E.
    apply render_this in E. destruct E as (?&?&?&_). simpl.
    unfold quiet. repeat split; congruence.
  - injection Hs as <-. unfold exec. rewrite cancel_quiet by exact Hq. exact Hq.
  - injection Hs as <-. rewrite finish_world.
    destruct (_document (this w)); exact Hq.
  - injection Hs as <-. exact Hq.
  - destruct (take (is_timer t) (timers w)) as [[a rest]|]; [|discriminate].
    destruct (due a (now w)); [|discriminate].
    injection Hs as <-. rewrite on_timeout_quiet by exact Hp.
    destruct (MAX_JOBS n <=? 0)%nat; exact Hq.
  - rewrite Hc in Hs. discriminate.
  - rewrite Hc in Hs. discriminate.
Qed.

Lemma run_quiet n es w w' :
  quiet w -> run n es w = Some w' -> quiet w'.
Proof.
  revert w. induction es as [|e es IH]; simpl; intros w Hq Hr.
  - injection Hr as <-. exact Hq.
  - destruct (step n e w) as [w1|] eqn:E; [|discriminate].
    eapply IH; [|exact Hr]. eapply step_quiet; eassumption.
Qed.

Lemma initial_quiet : quiet initial.
Proof. repeat split. Qed.

Lemma reachable_quiet n w : reachable n w -> quiet w.
Proof. intros [es H]. eapply run_quiet; [apply initial_quiet | exact H]. Qed.

(** ** Submission *)

Lemma render_null_workSet d l c componentId w :
  _workSet (this w) = None ->
  render d l c componentId w = (Throw TypeError, w).
Proof. intros H. js_methods. js_unfold. simpl. now rewrite H. Qed.

Lemma render_duplicate d l c componentId w o :
  _workSet (this w) = Some o ->
  JSObject.hasOwnProperty componentId o = true ->
  render d l c componentId w = (Throw already_pending, w).
Proof. intros H1 H2. js_methods. js_unfold. simpl. now rewrite H1, H2. Qed.

Lemma render_workSet d l c componentId w r w' :
  render d l c componentId w = (r, w') ->
  forall k o, _workSet (this w) = Some o ->
    JSObject.hasOwnProperty k o = true ->
    exists o', _workSet (this w') = Some o' /\
               JSObject.hasOwnProperty k o' = true.
Proof.
  intros H k o Ho Hk. revert H. js_methods. js_unfold. simpl. rewrite Ho.
  destruct (JSObject.hasOwnProperty componentId o) eqn:E; simpl.
  - intros H; inversion H; subst. eauto.
  - assert (Hne : k <> componentId) by congruence.
    destruct (_changeTimer (this w)); simpl; intros H; inversion H; subst;
      simpl; eexists; (split; [reflexivity|]);
      rewrite has_set_other by exact Hne; exact Hk.
Qed.

Lemma render_returns_tracked d l c componentId w q w' :
  render d l c componentId w = (Return q, w') ->
  exists o', _workSet (this w') = Some o' /\
             JSObject.hasOwnProperty componentId o' = true.
Proof.
  js_methods. js_unfold. simpl.
  destruct (_workSet (this w)) as [o|]; simpl; [|discriminate].
  destruct (JSObject.hasOwnProperty componentId o); simpl; [discriminate|].
  destruct (_changeTimer (this w)); simpl; intros H; inversion H; subst;
    simpl; eexists; (split; [reflexivity|]); apply has_set_same.
Qed.

(** Without [finish], a quiet world keeps [_workSet] as it is unless
    [render] adds to it. *)
Lemma step_workSet_null n e w w' :
  quiet w -> is_finish e = false -> step n e w = Some w' ->
  _workSet (this w) = None -> _workSet (this w') = None.
Proof.
  intros Hq Hf Hs Hn. pose proof Hq as (Hp & Hw & Hc).
  destruct e; simpl in Hs; try discriminate.
  - injection Hs as <-. unfold exec.
    rewrite render_null_workSet by exact Hn. exact Hn.
  - injection Hs as <-. unfold exec. rewrite cancel_quiet by exact Hq. exact Hn.
  - injection Hs as <-. exact Hn.
  - destruct (take (is_timer t) (timers w)) as [[a rest]|]; [|discriminate].
    destruct (due a (now w)); [|discriminate].
    injection Hs as <-. rewrite on_timeout_quiet by exact Hp.
    destruct (MAX_JOBS n <=? 0)%nat; exact Hn.
  - rewrite Hc in Hs. discriminate.
  - rewrite Hc in Hs. discriminate.
Qed.

Lemma step_workSet_keeps n e w w' k o :
  quiet w -> is_finish e = false -> step n e w = Some w' ->
  _workSet (this w) = Some o -> JSObject.hasOwnProperty k o = true ->
  exists o', _workSet (this w') = Some o' /\
             JSObject.hasOwnProperty k o' = true.
Proof.
  intros Hq Hf Hs Ho Hk. pose proof Hq as (Hp & Hw & Hc).
  destruct e; simpl in Hs; try discriminate.
  - injection Hs as <-. unfold exec.
    destruct (render d l c componentId w) as [r w1] eqn:E. simpl.
    eapply render_workSet; eassumption.
  - injection Hs as <-. unfold exec. rewrite cancel_quiet by exact Hq. eauto.
  - injection Hs as <-. eauto.
  - destruct (take (is_timer t) (timers w)) as [[a rest]|]; [|discriminate].
    destruct (due a (now w)); [|discriminate].
    injection Hs as <-. rewrite on_timeout_quiet by exact Hp.
    destruct (MAX_JOBS n <=? 0)%nat; simpl; eauto.
  - rewrite Hc in Hs. discriminate.
  - rewrite Hc in Hs. discriminate.
Qed.

Lemma run_workSet_null n es w w' :
  quiet w -> no_finish es = true -> run n es w = Some w' ->
  _workSet (this w) = None -> _workSet (this w') = None.
Proof.
  revert w. induction es as [|e es IH]; simpl; intros w Hq Hf Hr Hn.
  - injection Hr as <-. exact Hn.
  - apply andb_prop in Hf. destruct Hf as [Hf1 Hf2].
    apply negb_true_iff in Hf1.
    destruct (step n e w) as [w1|] eqn:E; [|discriminate].
    eapply (IH w1); eauto using step_quiet, step_workSet_null.
Qed.

Lemma run_workSet_keeps n es w w' k o :
  quiet w -> no_finish es = true -> run n es w = Some w' ->
  _workSet (this w) = Some o -> JSObject.hasOwnProperty k o = true ->
  exists o', _workSet (this w') = Some o' /\
             JSObject.hasOwnProperty k o' = true.
Proof.
  revert w o. induction es as [|e es IH]; simpl; intros w o Hq Hf Hr Ho Hk.
  - injection Hr as <-. eauto.
  - apply andb_prop in Hf. destruct Hf as [Hf1 Hf2].
    apply negb_true_iff in Hf1.
    destruct (step n e w) as [w1|] eqn:E; [|discriminate].
    destruct (step_workSet_keeps n e w w1 k o Hq Hf1 E Ho Hk) as (o1 & Ho1 & Hk1).
    eapply (IH w1 o1); eauto using step_quiet.
Qed.

Lemma tracked_quiet componentId w :
  quiet w -> tracked componentId w = true ->
  exists o, _workSet (this w) = Some o /\
            JSObject.hasOwnProperty componentId o = true.
Proof.
  intros (Hp & Hw & _). unfold tracked. rewrite Hp, Hw. simpl.
  rewrite !orb_false_r.
  destruct (_workSet (this w)) as [o|]; [eauto | discriminate].
Qed.

(** C2: on a manager on which [finish] has not been called, [_workSet] is
    still [null], so every call of [render] throws a TypeError and leaves
    the manager as it was; [finish] is what sets [_workSet] to an empty
    object. *)
Theorem C2_render_throws_until_finish n es w d l c componentId :
  run n es initial = Some w ->
  no_finish es = true ->
  _workSet (this w) = None /\
  render d l c componentId w = (Throw TypeError, w) /\
  _workSet (this (exec finish w)) = Some JSObject.empty.
Proof.
  intros Hr Hf.
  assert (Hn : _workSet (this w) = None).
  { eapply run_workSet_null; eauto using initial_quiet. }
  split; [exact Hn|]. split.
  - apply render_null_workSet, Hn.
  - rewrite finish_world. destruct (_document (this w)); reflexivity.
Qed.

Lemma C2_render_throws_until_finish_witness :
  let w := with_now 5 initial in
  _workSet (this w) = None /\
  render docA layerA png 1 w = (Throw TypeError, w) /\
  _workSet (this (exec finish w)) = Some JSObject.empty.
Proof.
  exact (C2_render_throws_until_finish 2
           [Call_render docA layerA png 1; Call_cancel 1; Elapse 5]
           (with_now 5 initial) docA layerA png 1 eq_refl eq_refl).
Defined.

(** C5: in every reachable world, [render] for a component id that is
    tracked throws the duplicate error and changes nothing; and once a
    call of [render] has returned for an id, every later call for that id
    throws it too, as long as [finish] has not been called in between. *)
Theorem C5_duplicate_submission_throws n es w d l c componentId :
  run n es initial = Some w ->
  (tracked componentId w = true ->
   render d l c componentId w = (Throw already_pending, w)) /\
  (forall q w1 es' w2 d' l' c',
     render d l c componentId w = (Return q, w1) ->
     no_finish es' = true ->
     run n es' w1 = Some w2 ->
     tracked componentId w2 = true /\
     render d' l' c' componentId w2 = (Throw already_pending, w2)).
Proof.
  intros Hr.
  assert (Hq : quiet w) by (eapply run_quiet; eauto using initial_quiet).
  split.
  - intros Ht. destruct (tracked_quiet _ _ Hq Ht) as (o & Ho & Hk).
    eapply render_duplicate; eassumption.
  - intros q w1 es' w2 d' l' c' Hrender Hf Hr'.
    assert (Hq1 : quiet w1).
    { pose proof (render_this _ _ _ _ _ _ _ Hrender) as (?&?&?&_).
      destruct Hq as (?&?&?). unfold quiet. repeat split; congruence. }
    destruct (render_returns_tracked _ _ _ _ _ _ _ Hrender) as (o1 & Ho1 & Hk1).
    destruct (run_workSet_keeps n es' w1 w2 componentId o1 Hq1 Hf Hr' Ho1 Hk1)
      as (o2 & Ho2 & Hk2).
    split.
    + unfold tracked. rewrite Ho2, Hk2. reflexivity.
    + eapply render_duplicate; eassumption.
Qed.

Lemma C5_duplicate_submission_throws_witness :
  let w := after 2 [Call_finish] initial in
  let w1 := after 2 [Call_render docA layerA png 1] w in
  let w2 := after 2 [Elapse 1000; TimerFires 0] w1 in
  render docA layerA svg 1 w1 = (Throw already_pending, w1) /\
  tracked 1 w2 = true /\
  render docA layerA svg 1 w2 = (Throw already_pending, w2).
Proof.
  split.
  - apply (proj1 (C5_duplicate_submission_throws 2
             [Call_finish; Call_render docA layerA png 1]
             (after 2 [Call_finish; Call_render docA layerA png 1] initial)
             docA layerA svg 1 eq_refl)).
    reflexivity.
  - apply (proj2 (C5_duplicate_submission_throws 2 [Call_finish]
             (after 2 [Call_finish] initial) docA layerA png 1 eq_refl)
             0 (after 2 [Call_finish; Call_render docA layerA png 1] initial)
             [Elapse 1000; TimerFires 0]);
      reflexivity.
Defined.

(** ** Dispatch of submitted jobs *)

(** C1, as the code behaves: after A, B and C are submitted and the timer
    fires, the jobs sit in [_workSet], the drain finds [_pending] empty,
    nothing is promoted and no render is begun.  And on a manager whose
    [_pending] does hold A, B and C the drain with [MAX_JOBS = 2] returns
    at its guard, which compares the number of pending jobs with the cap:
    again nothing is promoted. *)
Theorem C1_submitted_jobs_are_not_dispatched :
  let w := after 2 scenario_ABC initial in
  (run 2 scenario_ABC initial = Some w /\
   option_map JSObject.keys (_workSet (this w)) = Some [1; 2; 3]%N /\
   _pending (this w) = [] /\
   _working (this w) = [] /\
   chains w = [] /\
   trace w = [(1000%N, ConsoleLog "Rendering quiesced." []);
              (1000%N, ProcessWorkSet);
              (0%N, SetTimeout 0 1000)]) /\
  _processWorkSet 2 queued_ABC = (Return tt, enter queued_ABC).
Proof. vm_compute. repeat split. Qed.

(** The guard of the drain counts the pending jobs, not the running ones:
    with A and B in [_working] and C in [_pending], a drain with
    [MAX_JOBS = 2] promotes C. *)
Example processWorkSet_guard_counts_pending :
  let w := with_this (fun m => set_working [(1%N, jobA); (2%N, jobB)]
                                 (set_pending [(3%N, jobC)] m)) queued_ABC in
  JSObject.keys (_working (this (exec (_processWorkSet 2) w))) = [1; 2; 3]%N.
Proof. vm_compute. reflexivity. Qed.

(** ** Cancellation *)

(** What [cancel] does for a job that is in [_pending] or in [_working]:
    the entry is deleted and the job's deferred is rejected. *)
Lemma cancel_queued componentId w job :
  JSObject.get componentId (_pending (this w)) = Some job ->
  cancel componentId w =
  (Return tt,
   with_deferreds (settle (deferred job) (Rejected None) (deferreds w))
     (with_this (update_the_set ThePending (JSObject.delete componentId)) w)).
Proof.
  intros Hg. assert (Hh : JSObject.hasOwnProperty componentId (_pending (this w)) = true)
    by (apply has_iff_get; eauto).
  js_methods. js_unfold. simpl. rewrite Hh. simpl. rewrite Hg. reflexivity.
Qed.

Lemma cancel_running componentId w job :
  JSObject.hasOwnProperty componentId (_pending (this w)) = false ->
  JSObject.get componentId (_working (this w)) = Some job ->
  cancel componentId w =
  (Return tt,
   with_deferreds (settle (deferred job) (Rejected None) (deferreds w))
     (with_this (update_the_set TheWorking (JSObject.delete componentId)) w)).
Proof.
  intros Hp Hg. assert (Hh : JSObject.hasOwnProperty componentId (_working (this w)) = true)
    by (apply has_iff_get; eauto).
  js_methods. js_unfold. simpl. rewrite Hp, Hh. simpl. rewrite Hg. reflexivity.
Qed.

(** C6, as the code behaves: in every reachable world [cancel] throws a
    TypeError and changes nothing, also for an id that [render] has
    recorded: the job stays in [_workSet] and its deferred stays as it
    was. *)
Theorem C6_cancel_misses_submitted_jobs n es w componentId :
  run n es initial = Some w ->
  cancel componentId w = (Throw TypeError, w).
Proof.
  intros Hr. apply cancel_quiet.
  eapply run_quiet; eauto using initial_quiet.
Qed.

Lemma C6_cancel_misses_submitted_jobs_witness :
  let w := after 2 [Call_finish; Call_render docA layerA png 1] initial in
  (tracked 1 w = true /\ deferreds w = [Pending]) /\
  cancel 1 w = (Throw TypeError, w).
Proof.
  split; [split; reflexivity|].
  apply (C6_cancel_misses_submitted_jobs 2
           [Call_finish; Call_render docA layerA png 1]
           (after 2 [Call_finish; Call_render docA layerA png 1] initial)).
  vm_compute. reflexivity.
Defined.

(** C10, as the code behaves: for an id in neither [_pending] nor
    [_working] the local [set] stays [undefined], and reading
    [set[componentId]] throws a TypeError. *)
Theorem C10_cancel_without_job_throws_TypeError componentId w :
  JSObject.hasOwnProperty componentId (_pending (this w)) = false ->
  JSObject.hasOwnProperty componentId (_working (this w)) = false ->
  cancel componentId w = (Throw TypeError, w).
Proof. apply cancel_untracked. Qed.

Lemma C10_cancel_without_job_throws_TypeError_witness :
  cancel 1 initial = (Throw TypeError, initial).
Proof.
  apply C10_cancel_without_job_throws_TypeError; reflexivity.
Defined.

(** ** The render operation of a promoted job *)

Lemma getPixmapRenderer_spec d w :
  _getPixmapRenderer d w =
  (Return (Some (fst (pixmap_renderer_for d w))),
   match JSObject.get (doc_id d) (_pixmapRenderers (this w)) with
   | Some _ => w
   | None =>
       with_this (fun m =>
         set_pixmapRenderers
           (JSObject.set (doc_id d) (next_renderer w) (_pixmapRenderers m)) m)
         (with_trace ((now w, CreatePixmapRenderer d (next_renderer w)) :: trace w)
            (with_next_renderer (S (next_renderer w)) w))
   end).
Proof.
  unfold pixmap_renderer_for. js_unfold. simpl.
  destruct (JSObject.hasOwnProperty (doc_id d) (_pixmapRenderers (this w))) eqn:E;
    simpl.
  - apply has_iff_get in E. destruct E as [r ->]. reflexivity.
  - rewrite get_set_same.
    destruct (JSObject.get (doc_id d) (_pixmapRenderers (this w))) eqn:G.
    + assert (JSObject.hasOwnProperty (doc_id d) (_pixmapRenderers (this w)) = true)
        by (apply has_iff_get; eauto).
      congruence.
    + reflexivity.
Qed.

Lemma on_bounds_spec d l c info w :
  exists w',
    on_bounds d l c info w = (Return (AwaitRender (next_op w)), w') /\
    trace w' =
      (now w, RendererRender (fst (pixmap_renderer_for d w)) l c
                (Some (bounds info)) (next_op w))
      :: snd (pixmap_renderer_for d w) ++ trace w /\
    JSObject.get (doc_id d) (_pixmapRenderers (this w')) =
      Some (fst (pixmap_renderer_for d w)).
Proof.
  unfold on_bounds, bind. rewrite getPixmapRenderer_spec.
  unfold pixmap_renderer_for.
  destruct (JSObject.get (doc_id d) (_pixmapRenderers (this w))) eqn:G;
    simpl; eexists; (split; [reflexivity|]); simpl; split; auto.
  apply get_set_same.
Qed.

Lemma take_found {A} (p : A -> bool) (l : list A) x rest :
  take p l = Some (x, rest) -> p x = true /\ In x l.
Proof.
  revert x rest. induction l as [|y r IH]; simpl; intros x rest H; [discriminate|].
  destruct (p y) eqn:E.
  - injection H as <- <-. auto.
  - destruct (take p r) as [[z r']|]; [|discriminate].
    injection H as <- <-. destruct (IH z r' eq_refl). auto.
Qed.

(** C8: the render operation is chosen by the component's extension.
    For "svg", [_renderComponent] calls [render] of the document's pixmap
    renderer at once, with no bounds, and makes no bounds query.
    Otherwise it calls [getPixmap] with [boundsOnly: true] and nothing
    else; when that query resolves, its [bounds] are passed as exact
    bounds to [render] of the document's pixmap renderer.  A promoted
    job's operation is [_renderComponent] on the job's document, layer
    and component. *)
Theorem C8_render_operation_by_kind n d l c w :
  (if String.eqb (extension c) "svg"
   then
     exists w',
       _renderComponent d l c w = (Return (AwaitRender (next_op w)), w') /\
       trace w' =
         (now w, RendererRender (fst (pixmap_renderer_for d w)) l c None (next_op w))
         :: snd (pixmap_renderer_for d w) ++ rendering_layer l w :: trace w /\
       JSObject.get (doc_id d) (_pixmapRenderers (this w')) =
         Some (fst (pixmap_renderer_for d w))
   else
     exists w',
       _renderComponent d l c w = (Return (AwaitBounds (next_op w) d l c), w') /\
       trace w' =
         (now w, GetPixmap (doc_id d) (layer_id l) true (next_op w))
         :: rendering_layer l w :: trace w) /\
  (forall op ch rest info,
     take (awaits_bounds op) (chains w) = Some (ch, rest) ->
     chain_awaits ch = AwaitBounds op d l c ->
     exists w',
       step n (GetPixmapSettles op (inr info)) w = Some w' /\
       trace w' =
         (now w, RendererRender (fst (pixmap_renderer_for d w)) l c
                   (Some (bounds info)) (next_op w))
         :: snd (pixmap_renderer_for d w) ++ trace w /\
       chains w' =
         rest ++ [{| chain_awaits := AwaitRender (next_op w);
                     chain_componentId := chain_componentId ch;
                     chain_layer := chain_layer ch |}]) /\
  (forall componentId job,
     JSObject.get componentId (_pending (this w)) = Some job ->
     exists promise w1,
       _renderComponent (document job) (layer job) (component job)
         (moved componentId job w) = (Return promise, w1) /\
       promote componentId w =
         (Return tt,
          with_chains (chains w1 ++ [chain_for componentId job promise]) w1)).
Proof.
  split; [|split].
  - unfold _renderComponent, rendering_layer.
    destruct (String.eqb (extension c) "svg").
    + unfold bind at 1. unfold emit, modify. unfold bind.
      rewrite getPixmapRenderer_spec. unfold pixmap_renderer_for. simpl.
      destruct (JSObject.get (doc_id d) (_pixmapRenderers (this w))) eqn:G;
        simpl; eexists; (split; [reflexivity|]); simpl; split; auto.
      apply get_set_same.
    + js_unfold. simpl. eexists. split; reflexivity.
  - intros op ch rest info Ht Ha. simpl. rewrite Ht, Ha.
    destruct (on_bounds_spec d l c info (with_chains rest w))
      as (w2 & Hb & Htr & _).
    rewrite Hb. eexists. split; [reflexivity|]. simpl. split.
    + exact Htr.
    + f_equal. revert Hb. unfold on_bounds, bind.
      rewrite getPixmapRenderer_spec. simpl.
      destruct (JSObject.get (doc_id d) (_pixmapRenderers (this w)));
        simpl; intros H; inversion H; reflexivity.
  - intros componentId job Hg.
    destruct (renderComponent_returns (document job) (layer job) (component job)
                (moved componentId job w)) as (a & w1 & Hr).
    exists a, w1. split; [exact Hr|].
    unfold promote. unfold bind at 1. unfold read. rewrite Hg.
    unfold bind at 1. unfold modify at 1. unfold bind at 1. unfold modify at 1.
    unfold bind. unfold moved in Hr.
    match goal with |- context [_renderComponent ?a1 ?a2 ?a3 ?w0] =>
      change (_renderComponent a1 a2 a3 w0)
        with (_renderComponent (document job) (layer job) (component job)
                (with_this (fun m =>
                   set_working (JSObject.set componentId job (_working m))
                     (set_pending (JSObject.delete componentId (_pending m)) m)) w))
    end.
    rewrite Hr. reflexivity.
Qed.

Lemma C8_render_operation_by_kind_witness :
  (trace (exec (_renderComponent docA layerA svg) initial) =
     [(0%N, RendererRender 0 layerA svg None 0);
      (0%N, CreatePixmapRenderer docA 0);
      (0%N, ConsoleLog "Rendering layer %d" [3%N])] /\
   trace (exec (_renderComponent docA layerA png) initial) =
     [(0%N, GetPixmap 7 3 true 0);
      (0%N, ConsoleLog "Rendering layer %d" [3%N])] /\
   trace (after 4 [GetPixmapSettles 0 (inr unit_bounds)] running_ABC) =
     (0%N, RendererRender 0 layerA png (Some (bounds unit_bounds)) 3)
     :: trace running_ABC) /\
  (exists w',
     _renderComponent docA layerA svg initial =
       (Return (AwaitRender (next_op initial)), w') /\
     trace w' =
       (now initial,
        RendererRender (fst (pixmap_renderer_for docA initial)) layerA svg None
          (next_op initial))
       :: snd (pixmap_renderer_for docA initial)
          ++ rendering_layer layerA initial :: trace initial /\
     JSObject.get (doc_id docA) (_pixmapRenderers (this w')) =
       Some (fst (pixmap_renderer_for docA initial))) /\
  (exists w',
     _renderComponent docA layerA png initial =
       (Return (AwaitBounds (next_op initial) docA layerA png), w') /\
     trace w' =
       (now initial, GetPixmap (doc_id docA) (layer_id layerA) true (next_op initial))
       :: rendering_layer layerA initial :: trace initial) /\
  (exists w',
     step 4 (GetPixmapSettles 0 (inr unit_bounds)) running_ABC = Some w' /\
     trace w' =
       (now running_ABC,
        RendererRender (fst (pixmap_renderer_for docA running_ABC)) layerA png
          (Some (bounds unit_bounds)) (next_op running_ABC))
       :: snd (pixmap_renderer_for docA running_ABC) ++ trace running_ABC /\
     chains w' =
       [chain_for 2 jobB (AwaitRender 1);
        chain_for 3 jobC (AwaitBounds 2 docA layerA png)]
       ++ [{| chain_awaits := AwaitRender (next_op running_ABC);
              chain_componentId :=
                chain_componentId
                  (chain_for 1 jobA (AwaitBounds 0 docA layerA png));
              chain_layer :=
                chain_layer (chain_for 1 jobA (AwaitBounds 0 docA layerA png)) |}]) /\
  (exists promise w1,
     _renderComponent (document jobA) (layer jobA) (component jobA)
       (moved 1 jobA queued_ABC) = (Return promise, w1) /\
     promote 1 queued_ABC =
       (Return tt, with_chains (chains w1 ++ [chain_for 1 jobA promise]) w1)).
Proof.
  split; [vm_compute; repeat split|].
  split; [|split; [|split]].
  - exact (proj1 (C8_render_operation_by_kind 2 docA layerA svg initial)).
  - exact (proj1 (C8_render_operation_by_kind 2 docA layerA png initial)).
  - apply (proj1 (proj2 (C8_render_operation_by_kind 4 docA layerA png running_ABC))
             0 (chain_for 1 jobA (AwaitBounds 0 docA layerA png))
             [chain_for 2 jobB (AwaitRender 1);
              chain_for 3 jobC (AwaitBounds 2 docA layerA png)]
             unit_bounds).
    + vm_compute. reflexivity.
    + reflexivity.
  - apply (proj2 (proj2 (C8_render_operation_by_kind 2 docA layerA png queued_ABC))
             1%N jobA).
    vm_compute. reflexivity.
Defined.

(** ** Completion of a started render *)




Lemma settled_eq n c failure w :
  settled n c failure w =
  _processWorkSet n (remove_running c (warned c failure w)).
Proof.
  unfold settled, on_rejected, on_finally, remove_running, warned.
  destruct failure; js_unfold; reflexivity.
Qed.

Lemma erase_this w1 w2 : erase w1 = erase w2 -> this w1 = this w2.
Proof. intros H. apply (f_equal this) in H. exact H. Qed.

Lemma promote_erase k w1 w2 :
  erase w1 = erase w2 ->
  fst (promote k w1) = fst (promote k w2) /\
  erase (snd (promote k w1)) = erase (snd (promote k w2)).
Proof.
  destruct w1, w2. unfold erase, with_trace. simpl. intros H.
  injection H as -> -> -> -> -> -> -> ->.
  js_run; auto.
Qed.

Lemma processWorkSet_erase n w1 :
  forall w2, erase w1 = erase w2 ->
  fst (_processWorkSet n w1) = fst (_processWorkSet n w2) /\
  erase (snd (_processWorkSet n w1)) = erase (snd (_processWorkSet n w2)).
Proof.
  funelim (_processWorkSet n w1); intros w2 He;
    rewrite (processWorkSet_unfold n w2);
    pose proof (erase_this _ _ He) as Hthis; rewrite <- Hthis;
    match goal with H : (_ <=? _)%nat = _ |- _ => rewrite H end.
  - split; [reflexivity|]. exact He.
  - match goal with H : JSObject.keys _ = [] |- _ => rewrite H end.
    split; [reflexivity|]. apply (f_equal (with_this (set_changeTimer None))) in He.
    exact He.
  - match goal with H : JSObject.keys _ = _ :: _ |- _ => rewrite H end.
    destruct (promote_erase componentId (enter w) (enter w2) He) as [Hf Hs].
    match goal with H : promote _ (enter w) = _ |- _ => rewrite H in Hf, Hs end.
    destruct (promote componentId (enter w2)) as [r2 w2']. simpl in Hf, Hs.
    subst r2. auto.
  - match goal with H : JSObject.keys _ = _ :: _ |- _ => rewrite H end.
    destruct (promote_erase componentId (enter w) (enter w2) He) as [Hf Hs].
    match goal with H : promote _ (enter w) = _ |- _ => rewrite H in Hf, Hs end.
    destruct (promote componentId (enter w2)) as [r2 w2']. simpl in Hf, Hs.
    subst r2. auto.
Qed.

Lemma promote_moves k w u w' :
  promote k w = (Return u, w') ->
  exists job promise,
    JSObject.get k (_pending (this w)) = Some job /\
    _working (this w') = JSObject.set k job (_working (this w)) /\
    chains w' = chains w ++ [chain_for k job promise].
Proof.
  unfold promote. unfold bind at 1. unfold read.
  destruct (JSObject.get k (_pending (this w))) as [job|]; [|discriminate].
  unfold bind at 1. unfold modify at 1. unfold bind at 1. unfold modify at 1.
  unfold bind.
  destruct (_renderComponent _ _ _ _) as [[a|e] w1] eqn:Hr; [|discriminate].
  pose proof Hr as Hc. apply renderComponent_this_else in Hr.
  assert (Hch : chains w1 = chains w).
  { revert Hc. clear. js_run; intros H; inversion H; subst; reflexivity. }
  unfold modify. intros H. inversion H; subst. simpl.
  exists job, a. repeat split.
  - destruct Hr as (_ & Hw & _). simpl in Hw. exact Hw.
  - rewrite Hch. reflexivity.
Qed.

Lemma processWorkSet_keeps_working n w k :
  JSObject.hasOwnProperty k (_working (this w)) = true ->
  JSObject.hasOwnProperty k (_working (this (snd (_processWorkSet n w)))) = true.
Proof.
  funelim (_processWorkSet n w); simpl; intros Hk.
  - exact Hk.
  - exact Hk.
  - destruct (promote_moves _ _ _ _ Hpromote) as (job & pr & _ & Hw & _).
    match goal with IH : forall k : N, _ |- _ => apply IH end.
    rewrite Hw. simpl.
    destruct (N.eq_dec k componentId) as [->|Hne].
    + apply has_set_same.
    + rewrite has_set_other by exact Hne. exact Hk.
  - match goal with
    | Hk : JSObject.keys _ = ?k :: ?ks, Hp : promote _ _ = (Throw _, _) |- _ =>
        destruct (promote_returns k ks (enter w) Hk) as [w1 Hw1]; congruence
    end.
Qed.

Lemma processWorkSet_keeps_chains n w c :
  In c (chains w) -> In c (chains (snd (_processWorkSet n w))).
Proof.
  funelim (_processWorkSet n w); simpl; intros Hc.
  - exact Hc.
  - exact Hc.
  - destruct (promote_moves _ _ _ _ Hpromote) as (job & pr & _ & _ & Hch).
    match goal with IH : forall c : Chain, _ |- _ => apply IH end.
    rewrite Hch. apply in_or_app. left. exact Hc.
  - match goal with
    | Hk : JSObject.keys _ = ?k :: ?ks, Hp : promote _ _ = (Throw _, _) |- _ =>
        destruct (promote_returns k ks (enter w) Hk) as [w1 Hw1]; congruence
    end.
Qed.

(** A drain that finds fewer pending jobs than [MAX_JOBS] promotes all of
    them. *)
Lemma processWorkSet_promotes_all n w :
  (List.length (JSObject.keys (_pending (this w))) < MAX_JOBS n)%nat ->
  _pending (this (snd (_processWorkSet n w))) = [] /\
  forall y, JSObject.hasOwnProperty y (_pending (this w)) = true ->
    JSObject.hasOwnProperty y (_working (this (snd (_processWorkSet n w)))) = true /\
    exists ch, In ch (chains (snd (_processWorkSet n w))) /\
               chain_componentId ch = y.
Proof.
  funelim (_processWorkSet n w); simpl; intros Hlt.
  - apply Nat.leb_le in Heq. lia.
  - assert (Hp : _pending (this w) = []).
    { destruct (_pending (this w)); [reflexivity | discriminate]. }
    split; [exact Hp|]. intros y Hy. rewrite Hp in Hy. discriminate.
  - pose proof (promote_pending _ _ _ _ Hpromote) as Hpend. simpl in Hpend.
    destruct (promote_moves _ _ _ _ Hpromote) as (job & pr & _ & Hw & Hch).
    simpl in Hw, Hch.
    assert (Hlt' : (List.length (JSObject.keys (_pending (this w'))) < MAX_JOBS n)%nat).
    { rewrite Hpend. unfold JSObject.keys in *. rewrite length_map in *.
      pose proof (delete_length_le componentId (_pending (this w))). lia. }
    destruct (H Hlt') as [Hnil Hall]. split; [exact Hnil|].
    intros y Hy. destruct (N.eq_dec y componentId) as [->|Hne].
    + split.
      * apply processWorkSet_keeps_working. rewrite Hw. apply has_set_same.
      * exists (chain_for componentId job pr). split; [|reflexivity].
        apply processWorkSet_keeps_chains. rewrite Hch.
        apply in_or_app. right. left. reflexivity.
    + apply Hall. rewrite Hpend. rewrite has_delete_other by exact Hne. exact Hy.
  - destruct (promote_returns componentId l (enter w) Hkeys) as [w1 Hw1].
    congruence.
Qed.

Lemma render_settles_step n op result w c rest :
  take (awaits_render op) (chains w) = Some (c, rest) ->
  step n (RenderSettles op result) w =
  Some (snd (_processWorkSet n
         (remove_running c (warned c (failure_of result) (with_chains rest w))))).
Proof.
  intros Ht. unfold step. rewrite Ht. cbv beta iota zeta.
  destruct result; unfold exec; rewrite settled_eq; reflexivity.
Qed.

(** A failed bounds query takes the same path. *)
Lemma bounds_failure_step n op err w c rest :
  take (awaits_bounds op) (chains w) = Some (c, rest) ->
  step n (GetPixmapSettles op (inl err)) w =
  Some (snd (_processWorkSet n
         (remove_running c (warned c (Some err) (with_chains rest w))))).
Proof.
  intros Ht. unfold step. rewrite Ht. cbv beta iota zeta.
  destruct (take_found _ _ _ _ Ht) as [Ha _]. unfold awaits_bounds in Ha.
  destruct (chain_awaits c); [discriminate|].
  unfold exec. rewrite settled_eq. reflexivity.
Qed.

(** C9: when the render of a started job settles, with a result or with a
    failure, its chain runs once: the job is deleted from [_working] and
    the drain is called again, and it returns.  A failure changes nothing
    but the logged warning, so it never keeps a pending sibling from being
    promoted by that drain. *)
Theorem C9_cleanup_and_drain_whatever_the_outcome n op result w c rest :
  take (awaits_render op) (chains w) = Some (c, rest) ->
  cleanup_then_drain n op result w c rest.
Proof.
  intros Ht. unfold cleanup_then_drain.
  set (bd := remove_running c (warned c (failure_of result) (with_chains rest w))).
  exists (snd (_processWorkSet n bd)).
  split; [apply render_settles_step, Ht|].
  split.
  { rewrite (surjective_pairing (_processWorkSet n bd)) at 1.
    rewrite processWorkSet_returns. reflexivity. }
  split.
  { unfold bd. destruct result; reflexivity. }
  split.
  { unfold bd, remove_running. simpl. apply has_delete_same. }
  split.
  - intros result'. eexists. split; [apply render_settles_step, Ht|].
    apply processWorkSet_erase. unfold bd.
    destruct result, result'; reflexivity.
  - intros Hlt y Hy.
    assert (Hp : _pending (this bd) = _pending (this w)).
    { unfold bd. destruct result; reflexivity. }
    destruct (processWorkSet_promotes_all n bd) as [Hnil Hall].
    { rewrite Hp. exact Hlt. }
    rewrite <- Hp in Hy. destruct (Hall y Hy) as [Hw Hch].
    split; [exact Hw|]. split; [|exact Hch].
    rewrite Hnil. reflexivity.
Qed.

Lemma C9_cleanup_and_drain_whatever_the_outcome_witness :
  let w' := after 2 [RenderSettles 0 (inl "Error: boom")] running_X_queued_Y in
  (JSObject.keys (_working (this running_X_queued_Y)) = [2%N] /\
   JSObject.keys (_pending (this running_X_queued_Y)) = [3%N] /\
   JSObject.keys (_working (this w')) = [3%N] /\
   JSObject.keys (_pending (this w')) = [] /\
   chains w' = [chain_for 3 jobC (AwaitBounds 1 docA layerA png)]) /\
  cleanup_then_drain 2 0 (inl "Error: boom") running_X_queued_Y
    (chain_for 2 jobB (AwaitRender 0)) [].
Proof.
  split; [vm_compute; repeat split|].
  apply C9_cleanup_and_drain_whatever_the_outcome.
  vm_compute. reflexivity.
Defined.

(** ** What the completion handlers and the guard do *)












(** ** The debounce timer *)

Lemma render_timer d l c componentId w :
  now (exec (render d l c componentId) w) = now w /\
  ((trace (exec (render d l c componentId) w) = trace w /\
    timers (exec (render d l c componentId) w) = timers w /\
    _changeTimer (this (exec (render d l c componentId) w)) =
      _changeTimer (this w)) \/
   (_changeTimer (this w) = None /\
    trace (exec (render d l c componentId) w) =
      (now w, SetTimeout (next_timer w) CHANGE_DELAY) :: trace w /\
    timers (exec (render d l c componentId) w) =
      timers w ++ [{| timer_handle := next_timer w; armed_at := now w;
                      timer_delay := CHANGE_DELAY |}] /\
    _changeTimer (this (exec (render d l c componentId) w)) =
      Some (next_timer w))).
Proof.
  js_methods. js_run; auto. split; [reflexivity|]. right. auto.
Qed.

Lemma take_singleton {A} (p : A -> bool) (x y : A) rest :
  take p [x] = Some (y, rest) -> y = x /\ rest = [].
Proof.
  simpl. destruct (p x); [|discriminate].
  intros H; injection H as <- <-. auto.
Qed.

Lemma timing_split tr :
  timing tr ->
  forall later t e earlier,
    tr = later ++ (t, e) :: earlier ->
    dispatches e = true -> after_the_delay t earlier.
Proof.
  induction tr as [|[t0 e0] tr IH]; simpl; intros Ht later t e earlier Heq Hd.
  - destruct later; discriminate.
  - destruct Ht as [H0 Ht]. destruct later as [|x later]; simpl in Heq.
    + injection Heq as -> -> ->. auto.
    + injection Heq as _ ->. eapply IH; eauto.
Qed.

Lemma step_armed_ok n e w w' :
  quiet w -> armed_ok w -> step n e w = Some w' -> armed_ok w'.
Proof.
  intros Hq (Hnow & Htm & Ht) Hs. pose proof Hq as (Hp & Hw & Hc).
  destruct e; simpl in Hs.
  - (* render *)
    injection Hs as <-.
    destruct (render_timer d l c componentId w)
      as [Hn [(Htr & Hti & Hct) | (Hnone & Htr & Hti & Hct)]].
    + unfold armed_ok. rewrite Hn, Htr, Hti, Hct. auto.
    + assert (Hempty : timers w = []).
      { destruct Htm as [H|(a & _ & Ha & _)]; [exact H | congruence]. }
      unfold armed_ok. rewrite Hn, Htr, Hti, Hct, Hempty. simpl.
      split; [|split].
      * intros t e [H|H]; [injection H as <- _; lia | eauto].
      * right. eexists. split; [reflexivity|]. simpl.
        repeat split; auto.
        intros t tid dl [H|H]; [injection H as <- _ _; lia | eauto].
      * split; [discriminate | exact Ht].
  - (* cancel *)
    injection Hs as <-. unfold exec. rewrite cancel_quiet by exact Hq.
    repeat split; auto.
  - (* finish *)
    injection Hs as <-. rewrite finish_world.
    destruct (_document (this w)); unfold armed_ok; simpl.
    + split; [|split].
      * intros t e [H|H]; [injection H as <- _; lia | eauto].
      * destruct Htm as [H|(a & H1 & H2 & H3 & H4 & H5)]; [left; exact H|].
        right. exists a. repeat split; auto.
        intros t tid dl [H|H]; [discriminate | eauto].
      * split; [discriminate | exact Ht].
    + repeat split; auto.
  - (* time passes *)
    injection Hs as <-. unfold armed_ok. simpl. split; [|split]; auto.
    intros t e H. apply Hnow in H. lia.
  - (* the timer fires *)
    destruct (take (is_timer t) (timers w)) as [[a rest]|] eqn:Etake; [|discriminate].
    destruct (due a (now w)) eqn:Edue; [|discriminate].
    injection Hs as <-. rewrite on_timeout_quiet by exact Hp.
    destruct Htm as [H|(a0 & H1 & H2 & H3 & H4 & H5)];
      [rewrite H in Etake; discriminate|].
    rewrite H1 in Etake. apply take_singleton in Etake.
    destruct Etake as [-> ->].
    unfold due in Edue. apply N.leb_le in Edue. rewrite H3 in Edue.
    assert (Hdelay : after_the_delay (now w) (trace w)).
    { split; [eauto|]. intros t1 tid dl Hin. apply H5 in Hin. lia. }
    destruct (MAX_JOBS n <=? 0)%nat; unfold armed_ok; simpl.
    + split; [|split]; auto.
      intros t1 e [H|H]; [injection H as <- _; lia | eauto].
    + split; [|split]; auto.
      * intros t1 e [H|[H|H]]; try (injection H as <- _; lia). eauto.
      * split; [discriminate|]. split; auto.
  - rewrite Hc in Hs. discriminate.
  - rewrite Hc in Hs. discriminate.
Qed.

Lemma run_armed_ok n es w w' :
  quiet w -> armed_ok w -> run n es w = Some w' -> armed_ok w'.
Proof.
  revert w. induction es as [|e es IH]; simpl; intros w Hq Ha Hr.
  - injection Hr as <-. exact Ha.
  - destruct (step n e w) as [w1|] eqn:E; [|discriminate].
    eapply (IH w1); eauto using step_quiet, step_armed_ok.
Qed.

Lemma initial_armed_ok : armed_ok initial.
Proof.
  unfold armed_ok. simpl. split; [|split]; auto. intros t e [].
Qed.

(** C7: in every reachable world at most one timer is armed, and it is
    the one [_changeTimer] holds, with delay [CHANGE_DELAY] = 1000 ms; a
    call of [render] made while [_changeTimer] is set arms no timer and
    leaves the armed one and its countdown as they are; and every drain
    (and every render attempt) in the history comes after a [setTimeout]
    and at least 1000 ms after each [setTimeout] that precedes it. *)
Theorem C7_one_timer_and_no_drain_before_the_delay n es w :
  run n es initial = Some w ->
  CHANGE_DELAY = 1000%N /\
  (List.length (timers w) <= 1)%nat /\
  (forall a, In a (timers w) ->
     timer_delay a = CHANGE_DELAY /\
     _changeTimer (this w) = Some (timer_handle a)) /\
  (forall d l c componentId,
     _changeTimer (this w) <> None ->
     timers (exec (render d l c componentId) w) = timers w /\
     _changeTimer (this (exec (render d l c componentId) w)) =
       _changeTimer (this w)) /\
  (forall later t e earlier,
     trace w = later ++ (t, e) :: earlier ->
     dispatches e = true ->
     (exists a tid, In (a, SetTimeout tid CHANGE_DELAY) earlier) /\
     (forall a tid d, In (a, SetTimeout tid d) earlier ->
        (a + CHANGE_DELAY <= t)%N)).
Proof.
  intros Hr.
  assert (Hq : quiet w) by (eapply run_quiet; eauto using initial_quiet).
  assert (Ha : armed_ok w).
  { eapply run_armed_ok; [apply initial_quiet | apply initial_armed_ok | exact Hr]. }
  destruct Ha as (Hnow & Htm & Ht).
  split; [reflexivity|]. split; [|split; [|split]].
  - destruct Htm as [->|(a & -> & _)]; simpl; lia.
  - intros a Hin. destruct Htm as [H|(a0 & H1 & H2 & H3 & _)].
    + rewrite H in Hin. destruct Hin.
    + rewrite H1 in Hin. destruct Hin as [<-|[]]. auto.
  - intros d l c componentId Hset.
    destruct (render_timer d l c componentId w)
      as [_ [(_ & Hti & Hct) | (Hnone & _)]]; [auto | congruence].
  - intros later t e earlier Heq Hd.
    apply (timing_split _ Ht later t e earlier Heq Hd).
Qed.

Lemma C7_one_timer_and_no_drain_before_the_delay_witness :
  let w := after 2 scenario_ABC initial in
  CHANGE_DELAY = 1000%N /\
  (List.length (timers w) <= 1)%nat /\
  (forall a, In a (timers w) ->
     timer_delay a = CHANGE_DELAY /\
     _changeTimer (this w) = Some (timer_handle a)) /\
  (forall d l c componentId,
     _changeTimer (this w) <> None ->
     timers (exec (render d l c componentId) w) = timers w /\
     _changeTimer (this (exec (render d l c componentId) w)) =
       _changeTimer (this w)) /\
  (forall later t e earlier,
     trace w = later ++ (t, e) :: earlier ->
     dispatches e = true ->
     (exists a tid, In (a, SetTimeout tid CHANGE_DELAY) earlier) /\
     (forall a tid d, In (a, SetTimeout tid d) earlier ->
        (a + CHANGE_DELAY <= t)%N)).
Proof.
  apply (C7_one_timer_and_no_drain_before_the_delay 2 scenario_ABC
           (after 2 scenario_ABC initial)).
  vm_compute. reflexivity.
Defined.

(** * Further properties of the methods *)

(** ** More on objects *)

Lemma get_set_other {V} (k k' : N) (v : V) (o : Obj V) :
  k <> k' -> JSObject.get k (JSObject.set k' v o) = JSObject.get k o.
Proof.
  intros Hne. apply N.eqb_neq in Hne.
  induction o as [|[k0 v0] r IH]; simpl.
  - now rewrite Hne.
  - destruct (k' =? k0)%N eqn:E; simpl.
    + apply N.eqb_eq in E. subst k0. now rewrite Hne.
    + destruct (JSObject.is_array_index k' &&
                (negb (JSObject.is_array_index k0) || (k' <? k0)%N)); simpl.
      * now rewrite Hne.
      * now rewrite IH.
Qed.

Lemma get_delete_same {V} (k : N) (o : Obj V) :
  JSObject.get k (JSObject.delete k o) = None.
Proof.
  induction o as [|[k' v'] r IH]; simpl; [reflexivity|].
  destruct (k =? k')%N eqn:E; simpl; [exact IH|]. now rewrite E.
Qed.

Lemma get_delete_other {V} (k k' : N) (o : Obj V) :
  k <> k' -> JSObject.get k (JSObject.delete k' o) = JSObject.get k o.
Proof.
  intros Hne.
  induction o as [|[k0 v0] r IH]; simpl; [reflexivity|].
  destruct (k' =? k0)%N eqn:E; simpl.
  - apply N.eqb_eq in E. subst k0.
    apply N.eqb_neq in Hne. now rewrite Hne.
  - now rewrite IH.
Qed.

Lemma has_false_get {V} (k : N) (o : Obj V) :
  JSObject.hasOwnProperty k o = false <-> JSObject.get k o = None.
Proof.
  induction o as [|[k' v'] r IH]; simpl; [tauto|].
  destruct (k =? k')%N; [|exact IH]. split; discriminate.
Qed.

Lemma delete_absent {V} (k : N) (o : Obj V) :
  ~ In k (JSObject.keys o) -> JSObject.delete k o = o.
Proof.
  induction o as [|[k' v'] r IH]; simpl; [reflexivity|].
  intros H. destruct (k =? k')%N eqn:E.
  - apply N.eqb_eq in E. subst. tauto.
  - rewrite IH; tauto.
Qed.

(** ** The renderer cache *)

Lemma getPixmapRenderer_keeps d w r w' k x :
  _getPixmapRenderer d w = (r, w') ->
  cached_renderer k w = Some x -> cached_renderer k w' = Some x.
Proof.
  unfold cached_renderer. rewrite getPixmapRenderer_spec.
  intros H Hk. injection H as _ <-.
  destruct (JSObject.get (doc_id d) (_pixmapRenderers (this w))) eqn:G;
    [exact Hk|]. simpl.
  destruct (N.eq_dec k (doc_id d)) as [->|Hne]; [congruence|].
  rewrite get_set_other by exact Hne. exact Hk.
Qed.

(** X1: [_getPixmapRenderer] returns a renderer for every document, and
    after a call for a document every call for a document with the same
    id returns that same renderer and changes nothing: the factory is
    not called again. *)
Theorem X1_getPixmapRenderer_caches d d' w r w1 :
  _getPixmapRenderer d w = (r, w1) ->
  doc_id d' = doc_id d ->
  (exists x, r = Return (Some x) /\ cached_renderer (doc_id d) w1 = Some x) /\
  _getPixmapRenderer d' w1 = (r, w1).
Proof.
  intros H Hid. rewrite getPixmapRenderer_spec in H.
  assert (Hc : cached_renderer (doc_id d) w1 = Some (fst (pixmap_renderer_for d w))).
  { injection H as _ <-. unfold cached_renderer, pixmap_renderer_for.
    destruct (JSObject.get (doc_id d) (_pixmapRenderers (this w))) eqn:G;
      simpl; [exact G | apply get_set_same]. }
  injection H as <- Hw. split; [eauto|].
  rewrite getPixmapRenderer_spec. unfold pixmap_renderer_for.
  unfold cached_renderer in Hc. rewrite Hid, Hc. reflexivity.
Qed.

Lemma X1_getPixmapRenderer_caches_witness :
  (exists x,
     fst (_getPixmapRenderer docA initial) = Return (Some x) /\
     cached_renderer (doc_id docA) (snd (_getPixmapRenderer docA initial)) =
       Some x) /\
  _getPixmapRenderer {| doc_id := 7 |} (snd (_getPixmapRenderer docA initial)) =
    (fst (_getPixmapRenderer docA initial),
     snd (_getPixmapRenderer docA initial)).
Proof.
  apply (X1_getPixmapRenderer_caches docA {| doc_id := 7 |} initial);
    reflexivity.
Defined.

Lemma renderComponent_keeps d l c w r w' k x :
  _renderComponent d l c w = (r, w') ->
  cached_renderer k w = Some x -> cached_renderer k w' = Some x.
Proof.
  unfold _renderComponent. unfold bind at 1. unfold emit, modify.
  destruct (String.eqb (extension c) "svg").
  - unfold bind.
    destruct (_getPixmapRenderer d _) as [[o|e] w1] eqn:G; intros H Hk.
    + apply (getPixmapRenderer_keeps _ _ _ _ k x) in G; [|exact Hk].
      revert H. unfold renderer_render, throw.
      destruct o; intros H; injection H as _ <-; exact G.
    + apply (getPixmapRenderer_keeps _ _ _ _ k x) in G; [|exact Hk].
      injection H as _ <-. exact G.
  - js_unfold. simpl. intros H Hk. injection H as _ <-. exact Hk.
Qed.

Lemma on_bounds_keeps d l c info w r w' k x :
  on_bounds d l c info w = (r, w') ->
  cached_renderer k w = Some x -> cached_renderer k w' = Some x.
Proof.
  unfold on_bounds, bind.
  destruct (_getPixmapRenderer d w) as [[o|e] w1] eqn:G; intros H Hk;
    apply (getPixmapRenderer_keeps _ _ _ _ k x) in G; try exact Hk.
  - revert H. unfold renderer_render, throw.
    destruct o; intros H; injection H as _ <-; exact G.
  - injection H as _ <-. exact G.
Qed.

Lemma promote_keeps componentId w r w' k x :
  promote componentId w = (r, w') ->
  cached_renderer k w = Some x -> cached_renderer k w' = Some x.
Proof.
  unfold promote. unfold bind at 1. unfold read.
  destruct (JSObject.get componentId (_pending (this w))) as [job|].
  - unfold bind at 1. unfold modify at 1. unfold bind at 1. unfold modify at 1.
    unfold bind.
    destruct (_renderComponent _ _ _ _) as [[a|e] w1] eqn:Hr; intros H Hk;
      apply (renderComponent_keeps _ _ _ _ _ _ k x) in Hr; try exact Hk;
      unfold modify in H; injection H as _ <-; exact Hr.
  - unfold throw. intros H Hk. injection H as _ <-. exact Hk.
Qed.

Lemma processWorkSet_keeps_renderers n w k x :
  cached_renderer k w = Some x ->
  cached_renderer k (snd (_processWorkSet n w)) = Some x.
Proof.
  funelim (_processWorkSet n w); simpl; intros Hk.
  - exact Hk.
  - exact Hk.
  - match goal with IH : forall k : N, _ |- _ => apply IH end.
    eapply promote_keeps; [exact Hpromote | exact Hk].
  - match goal with Hp : promote _ _ = (Throw _, _) |- _ =>
      eapply promote_keeps; [exact Hp | exact Hk] end.
Qed.

Lemma settled_keeps_renderers n c failure w k x :
  cached_renderer k w = Some x ->
  cached_renderer k (exec (settled n c failure) w) = Some x.
Proof.
  intros Hk. unfold exec. rewrite settled_eq.
  apply processWorkSet_keeps_renderers.
  destruct failure; exact Hk.
Qed.

Lemma methods_keep_renderers w :
  (forall d l c componentId,
     _pixmapRenderers (this (exec (render d l c componentId) w)) =
     _pixmapRenderers (this w)) /\
  (forall componentId,
     _pixmapRenderers (this (exec (cancel componentId) w)) =
     _pixmapRenderers (this w)) /\
  _pixmapRenderers (this (exec finish w)) = _pixmapRenderers (this w).
Proof.
  split; [|split]; intros; js_methods.
  - js_run; reflexivity.
  - js_unfold. simpl.
    destruct (JSObject.hasOwnProperty componentId (_pending (this w))); simpl.
    + destruct (JSObject.get componentId (_pending (this w))); reflexivity.
    + destruct (JSObject.hasOwnProperty componentId (_working (this w))); simpl;
        [|reflexivity].
      destruct (JSObject.get componentId (_working (this w))); reflexivity.
  - js_run; reflexivity.
Qed.

Lemma step_keeps_renderers n e w w' k x :
  step n e w = Some w' ->
  cached_renderer k w = Some x -> cached_renderer k w' = Some x.
Proof.
  intros Hs Hk. destruct (methods_keep_renderers w) as (Hr & Hc & Hf).
  destruct e; simpl in Hs.
  - injection Hs as <-. unfold cached_renderer in *. now rewrite Hr.
  - injection Hs as <-. unfold cached_renderer in *. now rewrite Hc.
  - injection Hs as <-. unfold cached_renderer in *. now rewrite Hf.
  - injection Hs as <-. exact Hk.
  - destruct (take (is_timer t) (timers w)) as [[a rest]|]; [|discriminate].
    destruct (due a (now w)); [|discriminate].
    injection Hs as <-. unfold on_timeout, exec.
    apply processWorkSet_keeps_renderers. exact Hk.
  - destruct (take (awaits_bounds op) (chains w)) as [[c rest]|]; [|discriminate].
    destruct (chain_awaits c) as [|o d l cmp]; [discriminate|].
    destruct result as [err|info].
    + injection Hs as <-.
      apply (settled_keeps_renderers n c (Some err) (with_chains rest w)).
      exact Hk.
    + destruct (on_bounds d l cmp info (with_chains rest w)) as [[a|e] w2] eqn:E;
        apply (on_bounds_keeps _ _ _ _ _ _ _ k x) in E; try exact Hk;
        injection Hs as <-.
      * exact E.
      * apply (settled_keeps_renderers n c (Some "TypeError") w2). exact E.
  - destruct (take (awaits_render op) (chains w)) as [[c rest]|]; [|discriminate].
    destruct result as [err|v]; injection Hs as <-.
    + apply (settled_keeps_renderers n c (Some err) (with_chains rest w)).
      exact Hk.
    + apply (settled_keeps_renderers n c None (with_chains rest w)).
      exact Hk.
Qed.

(** X2: a renderer once cached for a document id stays cached for it,
    unchanged, whatever the manager does afterwards: no method evicts or
    replaces an entry of [_pixmapRenderers]. *)
Theorem X2_cached_renderer_is_kept n es w w' k x :
  run n es w = Some w' ->
  cached_renderer k w = Some x ->
  cached_renderer k w' = Some x.
Proof.
  revert w. induction es as [|e es IH]; simpl; intros w Hr Hk.
  - injection Hr as <-. exact Hk.
  - destruct (step n e w) as [w1|] eqn:E; [|discriminate].
    apply (IH w1 Hr). eapply step_keeps_renderers; eassumption.
Qed.

Lemma X2_cached_renderer_is_kept_witness :
  cached_renderer 7
    (after 4 [GetPixmapSettles 0 (inr unit_bounds);
              Call_finish;
              RenderSettles 1 (inl "Error: boom");
              GetPixmapSettles 2 (inr unit_bounds)] running_ABC) = Some 0.
Proof.
  apply (X2_cached_renderer_is_kept 4
           [GetPixmapSettles 0 (inr unit_bounds);
            Call_finish;
            RenderSettles 1 (inl "Error: boom");
            GetPixmapSettles 2 (inr unit_bounds)] running_ABC);
    vm_compute; reflexivity.
Defined.

(** ** Submission, once more *)

Lemma render_when_absent d l c componentId w o :
  _workSet (this w) = Some o ->
  JSObject.hasOwnProperty componentId o = false ->
  exists w',
    render d l c componentId w = (Return (List.length (deferreds w)), w') /\
    (exists o',
       _workSet (this w') = Some o' /\
       JSObject.get componentId o' =
         Some (job_of (List.length (deferreds w)) d l c) /\
       forall k, k <> componentId -> JSObject.get k o' = JSObject.get k o) /\
    deferreds w' = deferreds w ++ [Pending] /\
    deferred_state (List.length (deferreds w)) w' = Some Pending /\
    (forall q, (q < List.length (deferreds w))%nat ->
       deferred_state q w' = deferred_state q w) /\
    _pending (this w') = _pending (this w) /\
    _working (this w') = _working (this w) /\
    chains w' = chains w.
Proof.
  intros Ho Hh. unfold deferred_state.
  assert (Hnth : nth_error (deferreds w ++ [Pending])
                   (List.length (deferreds w)) = Some Pending).
  { rewrite nth_error_app2 by lia. rewrite Nat.sub_diag. reflexivity. }
  js_methods. js_unfold. simpl. rewrite Ho, Hh. simpl.
  destruct (_changeTimer (this w)); simpl; eexists;
    (split; [reflexivity|]); simpl;
    (split; [eexists; split; [reflexivity|]; split;
             [apply get_set_same | intros k Hk; apply get_set_other, Hk]|]);
    (split; [reflexivity|]); (split; [exact Hnth|]);
    (split; [intros q Hq; apply nth_error_app1, Hq|]); auto.
Qed.

(** X3: on a manager whose [_workSet] is an object without the id,
    [render] returns a new deferred, adds it to the store as pending and
    records under the id the job made of that deferred and the three
    arguments; the other entries of [_workSet], the other deferreds and
    the two collections of the drain are left as they were. *)
Theorem X3_render_records_the_job d l c componentId w o :
  _workSet (this w) = Some o ->
  JSObject.hasOwnProperty componentId o = false ->
  exists w',
    render d l c componentId w = (Return (List.length (deferreds w)), w') /\
    (exists o',
       _workSet (this w') = Some o' /\
       JSObject.get componentId o' =
         Some (job_of (List.length (deferreds w)) d l c) /\
       forall k, k <> componentId -> JSObject.get k o' = JSObject.get k o) /\
    deferreds w' = deferreds w ++ [Pending] /\
    deferred_state (List.length (deferreds w)) w' = Some Pending /\
    (forall q, (q < List.length (deferreds w))%nat ->
       deferred_state q w' = deferred_state q w) /\
    _pending (this w') = _pending (this w) /\
    _working (this w') = _working (this w) /\
    chains w' = chains w.
Proof. apply render_when_absent. Qed.

Lemma X3_render_records_the_job_witness :
  exists w',
    render docA layerA svg 2 (after 2 [Call_finish] initial) =
      (Return (List.length (deferreds (after 2 [Call_finish] initial))), w') /\
    (exists o',
       _workSet (this w') = Some o' /\
       JSObject.get 2 o' =
         Some (job_of (List.length (deferreds (after 2 [Call_finish] initial)))
                 docA layerA svg) /\
       forall k, k <> 2%N -> JSObject.get k o' = JSObject.get k JSObject.empty) /\
    deferreds w' = deferreds (after 2 [Call_finish] initial) ++ [Pending] /\
    deferred_state (List.length (deferreds (after 2 [Call_finish] initial))) w' =
      Some Pending /\
    (forall q, (q < List.length (deferreds (after 2 [Call_finish] initial)))%nat ->
       deferred_state q w' = deferred_state q (after 2 [Call_finish] initial)) /\
    _pending (this w') = _pending (this (after 2 [Call_finish] initial)) /\
    _working (this w') = _working (this (after 2 [Call_finish] initial)) /\
    chains w' = chains (after 2 [Call_finish] initial).
Proof.
  apply (X3_render_records_the_job docA layerA svg 2
           (after 2 [Call_finish] initial) JSObject.empty); reflexivity.
Defined.

(** X4: a call of [render] that throws has written nothing, and it throws
    in two cases only: a TypeError when [_workSet] is [null], the
    duplicate error when [_workSet] has the id. *)
Theorem X4_render_throws_without_writing d l c componentId w e w' :
  render d l c componentId w = (Throw e, w') ->
  w' = w /\
  ((_workSet (this w) = None /\ e = TypeError) \/
   (exists o, _workSet (this w) = Some o /\
              JSObject.hasOwnProperty componentId o = true /\
              e = already_pending)).
Proof.
  js_methods. js_unfold. simpl.
  destruct (_workSet (this w)) as [o|] eqn:Ho; simpl.
  - destruct (JSObject.hasOwnProperty componentId o) eqn:Hh; simpl.
    + intros H. injection H as <- <-. split; [reflexivity|]. right. eauto.
    + destruct (_changeTimer (this w)); simpl; discriminate.
  - intros H. injection H as <- <-. auto.
Qed.

Lemma X4_render_throws_without_writing_witness :
  after 2 [Call_finish; Call_render docA layerA png 1] initial =
  after 2 [Call_finish; Call_render docA layerA png 1] initial /\
  ((_workSet (this (after 2 [Call_finish; Call_render docA layerA png 1] initial))
      = None /\ already_pending = TypeError) \/
   (exists o,
      _workSet (this (after 2 [Call_finish; Call_render docA layerA png 1] initial))
        = Some o /\
      JSObject.hasOwnProperty 1 o = true /\
      already_pending = already_pending)).
Proof.
  apply (X4_render_throws_without_writing docA layerA svg 1
           (after 2 [Call_finish; Call_render docA layerA png 1] initial)).
  reflexivity.
Defined.

(** X5: a call of [render] that returns while [_changeTimer] is not set
    arms one timer, stores its handle in [_changeTimer], and that timer
    is due exactly from 1000 ms after the call. *)
Theorem X5_render_arms_the_timer d l c componentId w q w' :
  render d l c componentId w = (Return q, w') ->
  _changeTimer (this w) = None ->
  let armed := {| timer_handle := next_timer w; armed_at := now w;
                  timer_delay := CHANGE_DELAY |} in
  timers w' = timers w ++ [armed] /\
  _changeTimer (this w') = Some (next_timer w) /\
  next_timer w' = S (next_timer w) /\
  trace w' = (now w, SetTimeout (next_timer w) CHANGE_DELAY) :: trace w /\
  now w' = now w /\
  forall clock, due armed clock = true <-> (now w + 1000 <= clock)%N.
Proof.
  intros H Hn. revert H. js_methods. js_unfold. simpl.
  destruct (_workSet (this w)) as [o|]; simpl; [|discriminate].
  destruct (JSObject.hasOwnProperty componentId o); simpl; [discriminate|].
  rewrite Hn. simpl. intros H. injection H as _ <-. simpl.
  repeat split; auto.
  - unfold due. simpl. intros Hd. apply N.leb_le in Hd. exact Hd.
  - unfold due. simpl. intros Hd. apply N.leb_le. exact Hd.
Qed.

Lemma X5_render_arms_the_timer_witness :
  let w := after 2 [Call_finish; Elapse 40] initial in
  let w' := after 2 [Call_finish; Elapse 40; Call_render docA layerA png 1] initial in
  let armed := {| timer_handle := next_timer w; armed_at := now w;
                  timer_delay := CHANGE_DELAY |} in
  timers w' = timers w ++ [armed] /\
  _changeTimer (this w') = Some (next_timer w) /\
  next_timer w' = S (next_timer w) /\
  trace w' = (now w, SetTimeout (next_timer w) CHANGE_DELAY) :: trace w /\
  now w' = now w /\
  forall clock, due armed clock = true <-> (now w + 1000 <= clock)%N.
Proof.
  apply (X5_render_arms_the_timer docA layerA png 1
           (after 2 [Call_finish; Elapse 40] initial) 0); reflexivity.
Defined.

(** X6: [finish] replaces [_workSet] by an empty object and touches
    nothing else: the deferreds of the jobs it drops stay as they are, an
    armed timer stays armed, the collections of the drain and the started
    renders are kept.  With [_document] still [null] it then throws a
    TypeError, otherwise it returns.  After it, [render] returns for every id, also for one
    that was recorded before. *)
Theorem X6_finish_forgets_the_submissions w :
  _workSet (this (exec finish w)) = Some JSObject.empty /\
  deferreds (exec finish w) = deferreds w /\
  timers (exec finish w) = timers w /\
  _changeTimer (this (exec finish w)) = _changeTimer (this w) /\
  _pending (this (exec finish w)) = _pending (this w) /\
  _working (this (exec finish w)) = _working (this w) /\
  chains (exec finish w) = chains w /\
  finish w =
    (match _document (this w) with
     | None => Throw TypeError
     | Some _ => Return tt
     end, exec finish w) /\
  (forall d l c componentId,
     exists w', render d l c componentId (exec finish w) =
                (Return (List.length (deferreds w)), w')).
Proof.
  rewrite finish_world.
  assert (Hr : forall w0 d l c componentId,
             _workSet (this w0) = Some JSObject.empty ->
             exists w', render d l c componentId w0 =
                        (Return (List.length (deferreds w0)), w')).
  { intros w0 d l c componentId Hw.
    destruct (render_when_absent d l c componentId w0 JSObject.empty Hw
                eq_refl) as (w' & H & _). eauto. }
  destruct (_document (this w)) eqn:Hd; simpl;
    repeat (split; [reflexivity|]);
    (split; [|intros d l c componentId;
              match goal with |- exists w', render _ _ _ _ ?w0 = _ =>
                exact (Hr w0 d l c componentId eq_refl) end]);
    js_methods; js_unfold; simpl; rewrite Hd; reflexivity.
Qed.

(** ** Cancellation of a job the drain knows *)

Lemma settle_same ref s store :
  nth_error store ref = Some Pending ->
  nth_error (settle ref s store) ref = Some s.
Proof.
  revert ref. induction store as [|p r IH]; intros [|n]; simpl; try discriminate.
  - intros H. injection H as ->. reflexivity.
  - apply IH.
Qed.

Lemma settle_other ref s store k :
  k <> ref -> nth_error (settle ref s store) k = nth_error store k.
Proof.
  revert ref k. induction store as [|p r IH]; intros [|n] [|k] Hne; simpl;
    try reflexivity; try congruence.
  - destruct p; reflexivity.
  - apply IH. congruence.
Qed.

Lemma settle_settled ref s store p :
  nth_error store ref = Some p -> p <> Pending -> settle ref s store = store.
Proof.
  revert ref. induction store as [|p0 r IH]; intros [|n]; simpl; try discriminate.
  - intros H Hp. injection H as ->. destruct p; congruence.
  - intros H Hp. f_equal. apply IH; assumption.
Qed.

Lemma cancel_found componentId w s :
  found_in componentId (this w) = Some s ->
  exists job,
    JSObject.get componentId (the_set s (this w)) = Some job /\
    cancel componentId w =
    (Return tt,
     with_deferreds (settle (deferred job) (Rejected None) (deferreds w))
       (with_this (update_the_set s (JSObject.delete componentId)) w)).
Proof.
  unfold found_in.
  destruct (JSObject.hasOwnProperty componentId (_pending (this w))) eqn:Hp.
  - intros H. injection H as <-. pose proof Hp as Hg.
    apply has_iff_get in Hg. destruct Hg as [job Hg]. exists job.
    split; [exact Hg|]. apply cancel_queued, Hg.
  - destruct (JSObject.hasOwnProperty componentId (_working (this w))) eqn:Hw;
      [|discriminate].
    intros H. injection H as <-. pose proof Hw as Hg.
    apply has_iff_get in Hg. destruct Hg as [job Hg]. exists job.
    split; [exact Hg|]. apply cancel_running; assumption.
Qed.

(** X7: when the id is in [_pending], or else in [_working], [cancel]
    returns; it has deleted the id from that collection and from no
    other, kept every other entry, [_workSet], the timer and the started
    renders, and rejected the job's deferred if it was pending; no other
    deferred changes. *)
Theorem X7_cancel_removes_and_rejects componentId w s :
  found_in componentId (this w) = Some s ->
  exists job,
    JSObject.get componentId (the_set s (this w)) = Some job /\
    cancel componentId w = (Return tt, exec (cancel componentId) w) /\
    JSObject.hasOwnProperty componentId
      (the_set s (this (exec (cancel componentId) w))) = false /\
    (forall k, k <> componentId ->
       JSObject.get k (the_set s (this (exec (cancel componentId) w))) =
       JSObject.get k (the_set s (this w))) /\
    the_set (other_set s) (this (exec (cancel componentId) w)) =
      the_set (other_set s) (this w) /\
    _workSet (this (exec (cancel componentId) w)) = _workSet (this w) /\
    timers (exec (cancel componentId) w) = timers w /\
    _changeTimer (this (exec (cancel componentId) w)) = _changeTimer (this w) /\
    chains (exec (cancel componentId) w) = chains w /\
    (deferred_state (deferred job) w = Some Pending ->
     deferred_state (deferred job) (exec (cancel componentId) w) =
       Some (Rejected None)) /\
    (forall q, q <> deferred job ->
       deferred_state q (exec (cancel componentId) w) = deferred_state q w).
Proof.
  intros Hf. destruct (cancel_found componentId w s Hf) as (job & Hg & Hc).
  exists job. unfold exec. rewrite Hc. simpl. unfold deferred_state. simpl.
  split; [exact Hg|]. split; [reflexivity|].
  destruct s; simpl;
    (split; [apply has_delete_same|]);
    (split; [intros k Hk; apply get_delete_other, Hk|]);
    repeat (split; [reflexivity|]);
    (split; [apply settle_same | intros q Hq; apply settle_other, Hq]).
Qed.

Lemma X7_cancel_removes_and_rejects_witness :
  exists job,
    JSObject.get 2 (the_set TheWorking (this running_ABC)) = Some job /\
    cancel 2 running_ABC = (Return tt, exec (cancel 2) running_ABC) /\
    JSObject.hasOwnProperty 2
      (the_set TheWorking (this (exec (cancel 2) running_ABC))) = false /\
    (forall k, k <> 2%N ->
       JSObject.get k (the_set TheWorking (this (exec (cancel 2) running_ABC))) =
       JSObject.get k (the_set TheWorking (this running_ABC))) /\
    the_set (other_set TheWorking) (this (exec (cancel 2) running_ABC)) =
      the_set (other_set TheWorking) (this running_ABC) /\
    _workSet (this (exec (cancel 2) running_ABC)) = _workSet (this running_ABC) /\
    timers (exec (cancel 2) running_ABC) = timers running_ABC /\
    _changeTimer (this (exec (cancel 2) running_ABC)) =
      _changeTimer (this running_ABC) /\
    chains (exec (cancel 2) running_ABC) = chains running_ABC /\
    (deferred_state (deferred job) running_ABC = Some Pending ->
     deferred_state (deferred job) (exec (cancel 2) running_ABC) =
       Some (Rejected None)) /\
    (forall q, q <> deferred job ->
       deferred_state q (exec (cancel 2) running_ABC) =
       deferred_state q running_ABC).
Proof.
  apply (X7_cancel_removes_and_rejects 2 running_ABC TheWorking).
  vm_compute. reflexivity.
Defined.

(** X8: [cancel] is not idempotent: after it has removed an id that was
    in one collection only, a second [cancel] of that id throws a
    TypeError and changes nothing. *)
Theorem X8_second_cancel_throws componentId w s :
  found_in componentId (this w) = Some s ->
  JSObject.hasOwnProperty componentId (the_set (other_set s) (this w)) = false ->
  cancel componentId (exec (cancel componentId) w) =
  (Throw TypeError, exec (cancel componentId) w).
Proof.
  intros Hf Ho. destruct (cancel_found componentId w s Hf) as (job & Hg & Hc).
  unfold exec. rewrite Hc. simpl. apply cancel_untracked; simpl;
    destruct s; simpl in *; auto using has_delete_same.
Qed.

Lemma X8_second_cancel_throws_witness :
  cancel 1 (exec (cancel 1) queued_ABC) =
  (Throw TypeError, exec (cancel 1) queued_ABC).
Proof.
  apply (X8_second_cancel_throws 1 queued_ABC ThePending); reflexivity.
Defined.

(** ** What a drain promotes *)

Lemma processWorkSet_at_the_cap n w :
  (MAX_JOBS n <= List.length (JSObject.keys (_pending (this w))))%nat ->
  _processWorkSet n w = (Return tt, enter w).
Proof.
  intros H. rewrite processWorkSet_unfold.
  apply Nat.leb_le in H. rewrite H. reflexivity.
Qed.

Lemma processWorkSet_pending_shrinks n w y job :
  JSObject.get y (_pending (this (snd (_processWorkSet n w)))) = Some job ->
  JSObject.get y (_pending (this w)) = Some job.
Proof.
  funelim (_processWorkSet n w); simpl; intros Hy.
  - exact Hy.
  - exact Hy.
  - match goal with IH : forall y : N, _ |- _ => apply IH in Hy end.
    rewrite (promote_pending _ _ _ _ Hpromote) in Hy. simpl in Hy.
    destruct (N.eq_dec y componentId) as [->|Hne].
    + rewrite get_delete_same in Hy. discriminate.
    + rewrite get_delete_other in Hy by exact Hne. exact Hy.
  - match goal with
    | Hk : JSObject.keys _ = ?k :: ?ks, Hp : promote _ _ = (Throw _, _) |- _ =>
        destruct (promote_returns k ks (enter w) Hk) as [w1 Hw1]; congruence
    end.
Qed.

Lemma processWorkSet_working_from n w y :
  JSObject.hasOwnProperty y (_working (this (snd (_processWorkSet n w)))) = true ->
  JSObject.hasOwnProperty y (_working (this w)) = true \/
  JSObject.hasOwnProperty y (_pending (this w)) = true.
Proof.
  funelim (_processWorkSet n w); simpl; intros Hy.
  - left. exact Hy.
  - left. exact Hy.
  - match goal with IH : forall y : N, _ |- _ => apply IH in Hy end.
    pose proof (promote_pending _ _ _ _ Hpromote) as Hpend. simpl in Hpend.
    destruct (promote_moves _ _ _ _ Hpromote) as (job & pr & Hg & Hw & _).
    simpl in Hg, Hw. rewrite Hw, Hpend in Hy.
    destruct (N.eq_dec y componentId) as [->|Hne].
    + right. apply has_iff_get. eauto.
    + rewrite has_set_other, has_delete_other in Hy by exact Hne. exact Hy.
  - match goal with
    | Hk : JSObject.keys _ = ?k :: ?ks, Hp : promote _ _ = (Throw _, _) |- _ =>
        destruct (promote_returns k ks (enter w) Hk) as [w1 Hw1]; congruence
    end.
Qed.

Lemma processWorkSet_chains_from n w c :
  In c (chains (snd (_processWorkSet n w))) ->
  In c (chains w) \/
  JSObject.hasOwnProperty (chain_componentId c) (_pending (this w)) = true.
Proof.
  funelim (_processWorkSet n w); simpl; intros Hc.
  - left. exact Hc.
  - left. exact Hc.
  - match goal with IH : forall c : Chain, _ |- _ => apply IH in Hc end.
    pose proof (promote_pending _ _ _ _ Hpromote) as Hpend. simpl in Hpend.
    destruct (promote_moves _ _ _ _ Hpromote) as (job & pr & Hg & _ & Hch).
    simpl in Hg, Hch. rewrite Hch, Hpend in Hc.
    destruct Hc as [Hc|Hc].
    + apply in_app_or in Hc. destruct Hc as [Hc|[<-|[]]]; [left; exact Hc|].
      right. simpl. apply has_iff_get. eauto.
    + destruct (N.eq_dec (chain_componentId c) componentId) as [Heq'|Hne].
      * rewrite Heq', has_delete_same in Hc. discriminate.
      * rewrite has_delete_other in Hc by exact Hne. auto.
  - match goal with
    | Hk : JSObject.keys _ = ?k :: ?ks, Hp : promote _ _ = (Throw _, _) |- _ =>
        destruct (promote_returns k ks (enter w) Hk) as [w1 Hw1]; congruence
    end.
Qed.

Lemma processWorkSet_below_the_cap n w :
  (List.length (JSObject.keys (_pending (this w))) < MAX_JOBS n)%nat ->
  _changeTimer (this (snd (_processWorkSet n w))) = None /\
  forall y,
    JSObject.get y (_working (this (snd (_processWorkSet n w)))) =
    match JSObject.get y (_pending (this w)) with
    | Some job => Some job
    | None => JSObject.get y (_working (this w))
    end.
Proof.
  funelim (_processWorkSet n w); simpl; intros Hlt.
  - apply Nat.leb_le in Heq. lia.
  - split; [reflexivity|]. intros y.
    assert (Hp : _pending (this w) = []).
    { destruct (_pending (this w)); [reflexivity | discriminate]. }
    rewrite Hp. reflexivity.
  - pose proof (promote_pending _ _ _ _ Hpromote) as Hpend. simpl in Hpend.
    destruct (promote_moves _ _ _ _ Hpromote) as (job & pr & Hg & Hw & _).
    simpl in Hg, Hw.
    assert (Hlt' : (List.length (JSObject.keys (_pending (this w'))) < MAX_JOBS n)%nat).
    { rewrite Hpend. unfold JSObject.keys in *. rewrite length_map in *.
      pose proof (delete_length_le componentId (_pending (this w))). lia. }
    match goal with IH : _ -> _ /\ _ |- _ => destruct (IH Hlt') as [Hct Hall] end.
    split; [exact Hct|]. intros y. rewrite Hall, Hpend, Hw.
    destruct (N.eq_dec y componentId) as [->|Hne].
    + rewrite get_delete_same, get_set_same, Hg. reflexivity.
    + rewrite get_delete_other, get_set_other by exact Hne. reflexivity.
  - destruct (promote_returns componentId l (enter w) Hkeys) as [w1 Hw1].
    congruence.
Qed.

(** X9: a drain that finds fewer pending jobs than [MAX_JOBS] returns
    with [_pending] empty and the timer handle cleared; every job that
    was pending is in [_working] under its id (replacing an entry that
    was there under that id), every other entry of [_working] is kept;
    [_workSet], the deferreds and the timers are not touched. *)
Theorem X9_drain_below_the_cap_promotes_all n w :
  (List.length (JSObject.keys (_pending (this w))) < MAX_JOBS n)%nat ->
  exists w',
    _processWorkSet n w = (Return tt, w') /\
    _pending (this w') = [] /\
    _changeTimer (this w') = None /\
    (forall y,
       JSObject.get y (_working (this w')) =
       match JSObject.get y (_pending (this w)) with
       | Some job => Some job
       | None => JSObject.get y (_working (this w))
       end) /\
    _workSet (this w') = _workSet (this w) /\
    deferreds w' = deferreds w /\
    timers w' = timers w.
Proof.
  intros Hlt. exists (snd (_processWorkSet n w)).
  split.
  { rewrite (surjective_pairing (_processWorkSet n w)) at 1.
    rewrite processWorkSet_returns. reflexivity. }
  destruct (processWorkSet_promotes_all n w Hlt) as [Hnil _].
  destruct (processWorkSet_below_the_cap n w Hlt) as [Hct Hall].
  destruct (processWorkSet_undisturbed n w) as (Hd & Hws & _ & _ & Hti & _).
  auto 10.
Qed.

Lemma X9_drain_below_the_cap_promotes_all_witness :
  exists w',
    _processWorkSet 4 queued_ABC = (Return tt, w') /\
    _pending (this w') = [] /\
    _changeTimer (this w') = None /\
    (forall y,
       JSObject.get y (_working (this w')) =
       match JSObject.get y (_pending (this queued_ABC)) with
       | Some job => Some job
       | None => JSObject.get y (_working (this queued_ABC))
       end) /\
    _workSet (this w') = _workSet (this queued_ABC) /\
    deferreds w' = deferreds queued_ABC /\
    timers w' = timers queued_ABC.
Proof.
  apply (X9_drain_below_the_cap_promotes_all 4 queued_ABC).
  vm_compute. lia.
Defined.

(** X20: the drain keeps to its own collections: whatever it promotes,
    [_processWorkSet] leaves [_workSet], every deferred, the armed timers
    and the clock as they were. *)
Theorem X20_drain_keeps_to_itself n w :
  _workSet (this (exec (_processWorkSet n) w)) = _workSet (this w) /\
  deferreds (exec (_processWorkSet n) w) = deferreds w /\
  timers (exec (_processWorkSet n) w) = timers w /\
  next_timer (exec (_processWorkSet n) w) = next_timer w /\
  now (exec (_processWorkSet n) w) = now w.
Proof.
  unfold exec.
  destruct (processWorkSet_undisturbed n w) as (Hd & Hws & _ & Hn & Hti & Hnt).
  auto 10.
Qed.

Lemma on_bounds_frame d l c info w r w' :
  on_bounds d l c info w = (r, w') ->
  _pending (this w') = _pending (this w) /\
  _working (this w') = _working (this w) /\
  chains w' = chains w.
Proof. js_run; intros H; inversion H; subst; simpl; auto. Qed.

Lemma take_length {A} (p : A -> bool) (l : list A) x rest :
  take p l = Some (x, rest) -> List.length l = S (List.length rest).
Proof.
  revert x rest. induction l as [|y r IH]; simpl; intros x rest H; [discriminate|].
  destruct (p y).
  - injection H as <- <-. reflexivity.
  - destruct (take p r) as [[z r']|]; [|discriminate].
    injection H as <- <-. simpl. f_equal. apply (IH z r' eq_refl).
Qed.

Lemma take_rest_in {A} (p : A -> bool) (l : list A) x rest y :
  take p l = Some (x, rest) -> In y rest -> In y l.
Proof.
  revert x rest. induction l as [|z r IH]; simpl; intros x rest H Hy; [discriminate|].
  destruct (p z).
  - injection H as <- <-. auto.
  - destruct (take p r) as [[u r']|]; [|discriminate].
    injection H as <- <-. destruct Hy as [->|Hy]; [auto|].
    right. apply (IH u r' eq_refl Hy).
Qed.

Lemma has_delete_implies {V} (k k' : N) (o : Obj V) :
  JSObject.hasOwnProperty k (JSObject.delete k' o) = true ->
  JSObject.hasOwnProperty k o = true.
Proof.
  destruct (N.eq_dec k k') as [->|Hne].
  - rewrite has_delete_same. discriminate.
  - rewrite has_delete_other by exact Hne. auto.
Qed.

(** The settled chain's handlers at the cap: the job is deleted from
    [_working] and the drain returns at its guard. *)
Lemma settled_at_the_cap n c failure w :
  (MAX_JOBS n <= List.length (JSObject.keys (_pending (this w))))%nat ->
  exec (settled n c failure) w = enter (remove_running c (warned c failure w)).
Proof.
  intros H. unfold exec. rewrite settled_eq, processWorkSet_at_the_cap;
    [reflexivity|]. destruct failure; exact H.
Qed.

Lemma step_at_the_cap n e w w' :
  (MAX_JOBS n <= List.length (JSObject.keys (_pending (this w))))%nat ->
  is_cancel e = false ->
  step n e w = Some w' ->
  _pending (this w') = _pending (this w) /\
  (List.length (chains w') <= List.length (chains w))%nat /\
  (forall y, JSObject.hasOwnProperty y (_working (this w')) = true ->
             JSObject.hasOwnProperty y (_working (this w)) = true).
Proof.
  intros Hcap Hc Hs. destruct e; try discriminate; unfold step in Hs.
  - injection Hs as <-. unfold exec.
    destruct (render d l c componentId w) as [r w1] eqn:E. simpl.
    apply render_this in E. destruct E as (-> & -> & -> & _). auto.
  - injection Hs as <-. rewrite finish_world.
    destruct (_document (this w)); simpl; auto.
  - injection Hs as <-. simpl. auto.
  - destruct (take (is_timer t) (timers w)) as [[a rest]|]; [|discriminate].
    destruct (due a (now w)); [|discriminate].
    injection Hs as <-. unfold on_timeout, exec.
    rewrite processWorkSet_at_the_cap by exact Hcap. simpl. auto.
  - destruct (take (awaits_bounds op) (chains w)) as [[c rest]|] eqn:Et;
      [|discriminate].
    apply take_length in Et. cbv beta iota zeta in Hs.
    destruct (chain_awaits c) as [|o d l cmp]; [discriminate|].
    destruct result as [err|info].
    + injection Hs as <-.
      pose proof (settled_at_the_cap n c (Some err) (with_chains rest w) Hcap)
        as Hsc.
      unfold settled in Hsc. rewrite Hsc.
      simpl. rewrite Et. split; [reflexivity|]. split; [lia|].
      intros y. apply has_delete_implies.
    + destruct (on_bounds d l cmp info (with_chains rest w)) as [[a|e] w2] eqn:E;
        apply on_bounds_frame in E; simpl in E; destruct E as (Hp & Hw & Hch);
        injection Hs as <-.
      * simpl. rewrite Hp, Hw, Hch, Et, length_app. simpl.
        split; [reflexivity|]. split; [lia|]. auto.
      * assert (Hcap2 : (MAX_JOBS n <=
                           List.length (JSObject.keys (_pending (this w2))))%nat)
          by (rewrite Hp; exact Hcap).
        pose proof (settled_at_the_cap n c (Some "TypeError") w2 Hcap2) as Hsc.
        unfold settled in Hsc. rewrite Hsc.
        simpl. rewrite Hp, Hw, Hch, Et. split; [reflexivity|]. split; [lia|].
        intros y. apply has_delete_implies.
  - destruct (take (awaits_render op) (chains w)) as [[c rest]|] eqn:Et;
      [|discriminate].
    apply take_length in Et. cbv beta iota zeta in Hs.
    destruct result as [err|v]; injection Hs as <-;
      [pose proof (settled_at_the_cap n c (Some err) (with_chains rest w) Hcap)
         as Hsc
      |pose proof (settled_at_the_cap n c None (with_chains rest w) Hcap)
         as Hsc];
      unfold settled in Hsc; rewrite Hsc;
      simpl; rewrite Et; (split; [reflexivity|]); (split; [lia|]);
      intros y; apply has_delete_implies.
Qed.

(** X10: while [_pending] holds [MAX_JOBS] jobs or more, no drain
    promotes any of them.  Over every sequence of events without a
    [cancel] (submissions, [finish], timers firing, renders settling),
    [_pending] stays exactly as it is, no render is started and
    [_working] gains no job.  Completed renders free no capacity for
    pending ones: the guard counts the pending jobs. *)
Theorem X10_pending_at_the_cap_is_stuck n es w w' :
  (MAX_JOBS n <= List.length (JSObject.keys (_pending (this w))))%nat ->
  no_cancel es = true ->
  run n es w = Some w' ->
  _pending (this w') = _pending (this w) /\
  (List.length (chains w') <= List.length (chains w))%nat /\
  (forall y, JSObject.hasOwnProperty y (_working (this w')) = true ->
             JSObject.hasOwnProperty y (_working (this w)) = true).
Proof.
  revert w. induction es as [|e es IH]; simpl; intros w Hcap Hnc Hr.
  - injection Hr as <-. auto.
  - apply andb_prop in Hnc. destruct Hnc as [Hc Hnc].
    apply negb_true_iff in Hc.
    destruct (step n e w) as [w1|] eqn:E; [|discriminate].
    destruct (step_at_the_cap n e w w1 Hcap Hc E) as (Hp & Hch & Hw).
    destruct (IH w1) as (Hp' & Hch' & Hw'); auto.
    { rewrite Hp. exact Hcap. }
    split; [congruence|]. split; [lia|]. auto.
Qed.

Lemma X10_pending_at_the_cap_is_stuck_witness :
  let es := [RenderSettles 0 (inr "B.png"); Call_finish;
             Call_render docA layerA png 9; Elapse 1000; TimerFires 0] in
  _pending (this (after 2 es running_X_queued_YZ)) =
    _pending (this running_X_queued_YZ) /\
  (List.length (chains (after 2 es running_X_queued_YZ)) <=
   List.length (chains running_X_queued_YZ))%nat /\
  (forall y,
     JSObject.hasOwnProperty y (_working (this (after 2 es running_X_queued_YZ)))
       = true ->
     JSObject.hasOwnProperty y (_working (this running_X_queued_YZ)) = true).
Proof.
  apply (X10_pending_at_the_cap_is_stuck 2
           [RenderSettles 0 (inr "B.png"); Call_finish;
            Call_render docA layerA png 9; Elapse 1000; TimerFires 0]
           running_X_queued_YZ).
  - vm_compute. lia.
  - reflexivity.
  - vm_compute. reflexivity.
Defined.

(** ** Where started renders come from *)

Lemma cancel_not_found componentId w :
  found_in componentId (this w) = None ->
  cancel componentId w = (Throw TypeError, w).
Proof.
  unfold found_in. intros H. apply cancel_untracked.
  - destruct (JSObject.hasOwnProperty componentId (_pending (this w)));
      [discriminate | reflexivity].
  - destruct (JSObject.hasOwnProperty componentId (_pending (this w)));
      [discriminate|].
    destruct (JSObject.hasOwnProperty componentId (_working (this w)));
      [discriminate | reflexivity].
Qed.

(** The collections and chains after [cancel]. *)
Lemma cancel_effect componentId w :
  chains (exec (cancel componentId) w) = chains w /\
  (forall y job,
     JSObject.get y (_pending (this (exec (cancel componentId) w))) = Some job ->
     JSObject.get y (_pending (this w)) = Some job).
Proof.
  destruct (found_in componentId (this w)) as [s|] eqn:Hf.
  - destruct (cancel_found componentId w s Hf) as (job & _ & Hc).
    unfold exec. rewrite Hc. simpl. split; [reflexivity|].
    intros y j. destruct s; simpl; [|auto].
    destruct (N.eq_dec y componentId) as [->|Hne].
    + rewrite get_delete_same. discriminate.
    + rewrite get_delete_other by exact Hne. auto.
  - unfold exec. rewrite cancel_not_found by exact Hf. auto.
Qed.

Lemma settled_from n c failure w :
  (forall y job,
     JSObject.get y (_pending (this (exec (settled n c failure) w))) = Some job ->
     JSObject.get y (_pending (this w)) = Some job) /\
  (forall x, In x (chains (exec (settled n c failure) w)) ->
     In x (chains w) \/
     JSObject.hasOwnProperty (chain_componentId x) (_pending (this w)) = true).
Proof.
  unfold exec. rewrite settled_eq. split.
  - intros y job H. apply processWorkSet_pending_shrinks in H.
    destruct failure; exact H.
  - intros x H. apply processWorkSet_chains_from in H.
    destruct failure; exact H.
Qed.

Lemma step_from n e w w' :
  step n e w = Some w' ->
  (forall y job,
     JSObject.get y (_pending (this w')) = Some job ->
     JSObject.get y (_pending (this w)) = Some job) /\
  (forall x, In x (chains w') ->
     (exists c0, In c0 (chains w) /\ chain_componentId c0 = chain_componentId x) \/
     JSObject.hasOwnProperty (chain_componentId x) (_pending (this w)) = true).
Proof.
  assert (Hsame : forall w1 : World,
            _pending (this w1) = _pending (this w) -> chains w1 = chains w ->
            (forall y job,
               JSObject.get y (_pending (this w1)) = Some job ->
               JSObject.get y (_pending (this w)) = Some job) /\
            (forall x, In x (chains w1) ->
               (exists c0, In c0 (chains w) /\ chain_componentId c0 = chain_componentId x) \/
               JSObject.hasOwnProperty (chain_componentId x) (_pending (this w))
                 = true)).
  { intros w1 -> ->. split; [auto|]. intros x Hx. left. exists x. auto. }
  assert (Hsettled : forall c rest failure w1,
            In c (chains w) ->
            (forall x, In x rest -> In x (chains w)) ->
            _pending (this w1) = _pending (this w) -> chains w1 = rest ->
            (forall y job,
               JSObject.get y
                 (_pending (this (exec (settled n c failure) w1))) = Some job ->
               JSObject.get y (_pending (this w)) = Some job) /\
            (forall x, In x (chains (exec (settled n c failure) w1)) ->
               (exists c0, In c0 (chains w) /\ chain_componentId c0 = chain_componentId x) \/
               JSObject.hasOwnProperty (chain_componentId x) (_pending (this w))
                 = true)).
  { intros c rest failure w1 Hc Hrest Hp Hch.
    destruct (settled_from n c failure w1) as [H1 H2]. split.
    - intros y job H. apply H1 in H. rewrite Hp in H. exact H.
    - intros x H. apply H2 in H. rewrite Hp, Hch in H.
      destruct H as [H|H]; [left; exists x; auto | right; exact H]. }
  intros Hs. destruct e; unfold step in Hs.
  - injection Hs as <-. unfold exec.
    destruct (render d l c componentId w) as [r w1] eqn:E. simpl.
    apply render_this in E. destruct E as (Hp & _ & Hch & _). auto.
  - injection Hs as <-. destruct (cancel_effect componentId w) as [Hch Hp].
    split; [exact Hp|]. intros x Hx. rewrite Hch in Hx. left. exists x. auto.
  - injection Hs as <-. apply Hsame; rewrite finish_world;
      destruct (_document (this w)); reflexivity.
  - injection Hs as <-. apply Hsame; reflexivity.
  - destruct (take (is_timer t) (timers w)) as [[a rest]|]; [|discriminate].
    destruct (due a (now w)); [|discriminate].
    injection Hs as <-. unfold on_timeout, exec. split.
    + intros y job H. apply processWorkSet_pending_shrinks in H. exact H.
    + intros x H. apply processWorkSet_chains_from in H.
      destruct H as [H|H]; [left; exists x; auto | right; exact H].
  - destruct (take (awaits_bounds op) (chains w)) as [[c rest]|] eqn:Et;
      [|discriminate].
    cbv beta iota zeta in Hs.
    pose proof (take_found _ _ _ _ Et) as [_ Hcin].
    pose proof (fun x => take_rest_in _ _ _ _ x Et) as Hrest.
    destruct (chain_awaits c) as [|o d l cmp]; [discriminate|].
    destruct result as [err|info].
    + injection Hs as <-.
      apply (Hsettled c rest (Some err) (with_chains rest w)); auto.
    + destruct (on_bounds d l cmp info (with_chains rest w)) as [[a|e] w2] eqn:E;
        apply on_bounds_frame in E; simpl in E; destruct E as (Hp & _ & Hch);
        injection Hs as <-.
      * simpl. split; [rewrite Hp; auto|].
        intros x Hx. rewrite Hch in Hx. left.
        apply in_app_or in Hx. destruct Hx as [Hx|[<-|[]]].
        -- exists x. auto.
        -- exists c. auto.
      * apply (Hsettled c rest (Some "TypeError") w2); auto.
  - destruct (take (awaits_render op) (chains w)) as [[c rest]|] eqn:Et;
      [|discriminate].
    cbv beta iota zeta in Hs.
    pose proof (take_found _ _ _ _ Et) as [_ Hcin].
    pose proof (fun x => take_rest_in _ _ _ _ x Et) as Hrest.
    destruct result as [err|v]; injection Hs as <-.
    + apply (Hsettled c rest (Some err) (with_chains rest w)); auto.
    + apply (Hsettled c rest None (with_chains rest w)); auto.
Qed.

Lemma run_from n es w w' :
  run n es w = Some w' ->
  (forall y job,
     JSObject.get y (_pending (this w')) = Some job ->
     JSObject.get y (_pending (this w)) = Some job) /\
  (forall x, In x (chains w') ->
     (exists c0, In c0 (chains w) /\ chain_componentId c0 = chain_componentId x) \/
     JSObject.hasOwnProperty (chain_componentId x) (_pending (this w)) = true).
Proof.
  revert w. induction es as [|e es IH]; simpl; intros w Hr.
  - injection Hr as <-. split; [auto|]. intros x Hx. left. exists x. auto.
  - destruct (step n e w) as [w1|] eqn:E; [|discriminate].
    destruct (step_from n e w w1 E) as [Hp Hc].
    destruct (IH w1 Hr) as [Hp' Hc']. split; [auto|].
    intros x Hx. destruct (Hc' x Hx) as [(c0 & Hin & Hid)|Hh].
    + rewrite <- Hid. apply Hc, Hin.
    + right. apply has_iff_get in Hh. destruct Hh as [job Hj].
      apply has_iff_get. eauto.
Qed.

Lemma has_chain_for_iff componentId w :
  has_chain_for componentId w = true <->
  exists c, In c (chains w) /\ chain_componentId c = componentId.
Proof.
  unfold has_chain_for. rewrite existsb_exists.
  split; intros (c & Hin & H); exists c; (split; [exact Hin|]);
    apply N.eqb_eq; exact H.
Qed.

(** X11: no method puts a job into [_pending]: over every sequence of
    events, whatever [_pending] holds under an id at the end it held
    under that id at the start. *)
Theorem X11_nothing_enters_pending n es w w' y job :
  run n es w = Some w' ->
  JSObject.get y (_pending (this w')) = Some job ->
  JSObject.get y (_pending (this w)) = Some job.
Proof. intros Hr. apply (run_from n es w w' Hr). Qed.

Lemma X11_nothing_enters_pending_witness :
  JSObject.get 3 (_pending (this running_X_queued_YZ)) = Some jobC.
Proof.
  apply (X11_nothing_enters_pending 1
           [Call_finish; Call_render docA layerA svg 1; Call_cancel 1;
            RenderSettles 0 (inr "B.png"); Elapse 1000; TimerFires 0]
           running_X_queued_YZ
           (after 1 [Call_finish; Call_render docA layerA svg 1; Call_cancel 1;
                     RenderSettles 0 (inr "B.png"); Elapse 1000; TimerFires 0]
              running_X_queued_YZ));
    vm_compute; reflexivity.
Defined.

(** X12: a render is started only for an id that is in [_pending]: over
    every sequence of events, each render in flight at the end belongs to
    an id that had a render in flight at the start or was in [_pending]
    at the start.  (A job that [render] recorded is in [_workSet], not in
    [_pending].) *)
Theorem X12_renders_start_from_pending_only n es w w' x :
  run n es w = Some w' ->
  In x (chains w') ->
  has_chain_for (chain_componentId x) w = true \/
  JSObject.hasOwnProperty (chain_componentId x) (_pending (this w)) = true.
Proof.
  intros Hr Hx. destruct (run_from n es w w' Hr) as [_ H].
  destruct (H x Hx) as [Hc|Hp]; [left | right; exact Hp].
  apply has_chain_for_iff. exact Hc.
Qed.

Lemma X12_renders_start_from_pending_only_witness :
  has_chain_for
    (chain_componentId (chain_for 3 jobC (AwaitBounds 1 docA layerA png)))
    running_X_queued_Y = true \/
  JSObject.hasOwnProperty
    (chain_componentId (chain_for 3 jobC (AwaitBounds 1 docA layerA png)))
    (_pending (this running_X_queued_Y)) = true.
Proof.
  apply (X12_renders_start_from_pending_only 2
           [Call_finish; Call_render docA layerA svg 1;
            RenderSettles 0 (inl "Error: boom")]
           running_X_queued_Y
           (after 2 [Call_finish; Call_render docA layerA svg 1;
                     RenderSettles 0 (inl "Error: boom")] running_X_queued_Y)).
  - vm_compute. reflexivity.
  - vm_compute. left. reflexivity.
Defined.

(** X13: cancelling a job that is in [_pending] keeps it from ever being
    started: if no render was in flight for its id, none is in flight
    for it after any sequence of events that follows the [cancel]. *)
Theorem X13_cancelled_pending_job_never_starts n es componentId w w' :
  found_in componentId (this w) = Some ThePending ->
  has_chain_for componentId w = false ->
  run n es (exec (cancel componentId) w) = Some w' ->
  has_chain_for componentId w' = false.
Proof.
  intros Hf Hno Hr.
  destruct (has_chain_for componentId w') eqn:E; [|reflexivity].
  apply has_chain_for_iff in E. destruct E as (x & Hx & Hid).
  destruct (cancel_found componentId w ThePending Hf) as (job & _ & Hc).
  destruct (run_from n es _ w' Hr) as [_ Hch].
  destruct (Hch x Hx) as [(c0 & Hin & Hid0)|Hh].
  - unfold exec in Hin. rewrite Hc in Hin. simpl in Hin.
    assert (has_chain_for componentId w = true).
    { apply has_chain_for_iff. exists c0. split; [exact Hin | congruence]. }
    congruence.
  - unfold exec in Hh. rewrite Hc, Hid in Hh. simpl in Hh.
    rewrite has_delete_same in Hh. discriminate.
Qed.

Lemma X13_cancelled_pending_job_never_starts_witness :
  has_chain_for 3
    (after 2 [RenderSettles 0 (inr "B.png"); Elapse 1000]
       (exec (cancel 3) running_X_queued_Y)) = false.
Proof.
  apply (X13_cancelled_pending_job_never_starts 2
           [RenderSettles 0 (inr "B.png"); Elapse 1000] 3 running_X_queued_Y);
    vm_compute; reflexivity.
Defined.

(** ** The order of promotion *)

Lemma keys_after_delete_first {V} (k : N) (ks : list N) (o : Obj V) :
  JSObject.keys o = k :: ks -> NoDup (k :: ks) ->
  JSObject.keys (JSObject.delete k o) = ks.
Proof.
  destruct o as [|[k' v'] r]; simpl; [discriminate|].
  intros H Hnd. injection H as -> <-. rewrite N.eqb_refl.
  inversion Hnd; subst. rewrite delete_absent; auto.
Qed.

Lemma processWorkSet_order n w :
  (List.length (JSObject.keys (_pending (this w))) < MAX_JOBS n)%nat ->
  NoDup (JSObject.keys (_pending (this w))) ->
  map chain_componentId (chains (snd (_processWorkSet n w))) =
  map chain_componentId (chains w) ++ JSObject.keys (_pending (this w)).
Proof.
  funelim (_processWorkSet n w); simpl; intros Hlt Hnd.
  - apply Nat.leb_le in Heq. lia.
  - match goal with H : JSObject.keys _ = [] |- _ => rewrite H end.
    rewrite app_nil_r. reflexivity.
  - pose proof (promote_pending _ _ _ _ Hpromote) as Hpend. simpl in Hpend.
    destruct (promote_moves _ _ _ _ Hpromote) as (job & pr & _ & _ & Hch).
    simpl in Hch. rewrite Hkeys in Hnd.
    pose proof (keys_after_delete_first _ _ _ Hkeys Hnd) as Hk.
    rewrite <- Hpend in Hk.
    match goal with IH : _ -> _ -> _ = _ |- _ => rewrite IH end.
    + rewrite Hch, Hk, Hkeys, map_app, <- app_assoc. reflexivity.
    + rewrite Hk. rewrite Hkeys in Hlt. simpl in Hlt. lia.
    + rewrite Hk. inversion Hnd; assumption.
  - destruct (promote_returns componentId l (enter w) Hkeys) as [w1 Hw1].
    congruence.
Qed.

(** X14: a drain below the cap starts the renders of the pending jobs in
    the order in which [Object.keys] enumerates [_pending] (ascending for
    integer ids), one render per job, after the renders already in
    flight. *)
Theorem X14_drain_starts_in_key_order n w :
  (List.length (JSObject.keys (_pending (this w))) < MAX_JOBS n)%nat ->
  NoDup (JSObject.keys (_pending (this w))) ->
  map chain_componentId (chains (snd (_processWorkSet n w))) =
  map chain_componentId (chains w) ++ JSObject.keys (_pending (this w)).
Proof. apply processWorkSet_order. Qed.

Lemma X14_drain_starts_in_key_order_witness :
  map chain_componentId (chains (snd (_processWorkSet 4 queued_ABC))) =
  map chain_componentId (chains queued_ABC) ++
  JSObject.keys (_pending (this queued_ABC)).
Proof.
  apply (X14_drain_starts_in_key_order 4 queued_ABC).
  - vm_compute. lia.
  - vm_compute. repeat constructor; simpl; intuition discriminate.
Defined.

(** ** Cancellation of a running job, then its completion *)

(** X15: when a running job is cancelled and its render settles
    afterwards, with a result or a failure, the completion does not touch
    the rejected deferred again and leaves the id out of [_working]; the
    drain it calls adds to [_working] only jobs that were pending. *)
Theorem X15_completion_after_cancel n op result componentId w job c rest :
  found_in componentId (this w) = Some TheWorking ->
  JSObject.get componentId (_working (this w)) = Some job ->
  deferred_state (deferred job) w = Some Pending ->
  take (awaits_render op) (chains w) = Some (c, rest) ->
  chain_componentId c = componentId ->
  exists w2,
    step n (RenderSettles op result) (exec (cancel componentId) w) = Some w2 /\
    deferred_state (deferred job) (exec (cancel componentId) w) =
      Some (Rejected None) /\
    deferred_state (deferred job) w2 = Some (Rejected None) /\
    JSObject.hasOwnProperty componentId (_working (this w2)) = false /\
    (forall y, JSObject.hasOwnProperty y (_working (this w2)) = true ->
       JSObject.hasOwnProperty y (_working (this w)) = true \/
       JSObject.hasOwnProperty y (_pending (this w)) = true).
Proof.
  intros Hf Hg Hd Ht Hid.
  destruct (cancel_found componentId w TheWorking Hf) as (job' & Hg' & Hc).
  simpl in Hg'. rewrite Hg in Hg'. injection Hg' as <-.
  assert (Hp : JSObject.hasOwnProperty componentId (_pending (this w)) = false).
  { unfold found_in in Hf.
    destruct (JSObject.hasOwnProperty componentId (_pending (this w)));
      [discriminate | reflexivity]. }
  assert (He : exec (cancel componentId) w =
               with_deferreds
                 (settle (deferred job) (Rejected None) (deferreds w))
                 (with_this
                    (update_the_set TheWorking (JSObject.delete componentId)) w))
    by (unfold exec; rewrite Hc; reflexivity).
  rewrite He. clear He.
  set (w1 := with_deferreds _ _).
  assert (Ht1 : take (awaits_render op) (chains w1) = Some (c, rest)) by exact Ht.
  rewrite (render_settles_step n op result w1 c rest Ht1).
  set (bd := remove_running c _).
  assert (Hd1 : deferred_state (deferred job) w1 = Some (Rejected None)).
  { unfold deferred_state, w1. simpl. apply settle_same. exact Hd. }
  exists (snd (_processWorkSet n bd)). split; [reflexivity|].
  split; [exact Hd1|]. split; [|split].
  - unfold deferred_state in *.
    destruct (processWorkSet_undisturbed n bd) as (Hdf & _). rewrite Hdf.
    unfold bd. destruct result; exact Hd1.
  - destruct (JSObject.hasOwnProperty componentId
                (_working (this (snd (_processWorkSet n bd))))) eqn:E;
      [|reflexivity].
    apply processWorkSet_working_from in E. destruct E as [E|E].
    + unfold bd, remove_running in E. rewrite Hid in E.
      destruct result; simpl in E; rewrite has_delete_same in E; discriminate.
    + unfold bd in E. destruct result; simpl in E; congruence.
  - intros y Hy. apply processWorkSet_working_from in Hy.
    destruct Hy as [Hy|Hy].
    + left. unfold bd, remove_running in Hy.
      destruct result; simpl in Hy;
        apply has_delete_implies, has_delete_implies in Hy; exact Hy.
    + right. unfold bd in Hy. destruct result; exact Hy.
Qed.

Lemma X15_completion_after_cancel_witness :
  exists w2,
    step 4 (RenderSettles 1 (inr "B.png")) (exec (cancel 2) running_ABC) = Some w2 /\
    deferred_state (deferred jobB) (exec (cancel 2) running_ABC) =
      Some (Rejected None) /\
    deferred_state (deferred jobB) w2 = Some (Rejected None) /\
    JSObject.hasOwnProperty 2 (_working (this w2)) = false /\
    (forall y, JSObject.hasOwnProperty y (_working (this w2)) = true ->
       JSObject.hasOwnProperty y (_working (this running_ABC)) = true \/
       JSObject.hasOwnProperty y (_pending (this running_ABC)) = true).
Proof.
  apply (X15_completion_after_cancel 4 1 (inr "B.png") 2 running_ABC jobB
           (chain_for 2 jobB (AwaitRender 1))
           [chain_for 1 jobA (AwaitBounds 0 docA layerA png);
            chain_for 3 jobC (AwaitBounds 2 docA layerA png)]);
    vm_compute; reflexivity.
Defined.

(** ** The manager a program can reach *)

Lemma render_outcome d l c componentId w o :
  _workSet (this w) = Some o ->
  JSObject.hasOwnProperty componentId o = false ->
  render d l c componentId w =
  (Return (List.length (deferreds w)), armed (recorded d l c componentId o w)).
Proof.
  intros Ho Hh. unfold armed, recorded, job_of. js_methods. js_unfold. simpl.
  rewrite Ho, Hh. simpl. destruct (_changeTimer (this w)); reflexivity.
Qed.

(** Every step from a quiet world is one of five. *)
Lemma step_quiet_cases n e w w' :
  quiet w -> step n e w = Some w' ->
  w' = w \/
  (exists d l c componentId o,
     _workSet (this w) = Some o /\
     JSObject.hasOwnProperty componentId o = false /\
     w' = armed (recorded d l c componentId o w)) \/
  w' = exec finish w \/
  (exists ms, w' = with_now (now w + ms)%N w) \/
  (exists t a rest,
     take (is_timer t) (timers w) = Some (a, rest) /\
     due a (now w) = true /\
     w' = fired n (with_timers rest w)).
Proof.
  intros Hq Hs. pose proof Hq as (Hp & Hw & Hc).
  destruct e; simpl in Hs.
  - injection Hs as <-. unfold exec.
    destruct (_workSet (this w)) as [o|] eqn:Ho.
    + destruct (JSObject.hasOwnProperty componentId o) eqn:Hh.
      * rewrite (render_duplicate d l c componentId w o Ho Hh). auto.
      * rewrite (render_outcome d l c componentId w o Ho Hh).
        right. left. exists d, l, c, componentId, o. auto.
    + rewrite render_null_workSet by exact Ho. auto.
  - injection Hs as <-. unfold exec. rewrite cancel_quiet by exact Hq. auto.
  - injection Hs as <-. auto.
  - injection Hs as <-. right. right. right. left. eauto.
  - destruct (take (is_timer t) (timers w)) as [[a rest]|] eqn:Et; [|discriminate].
    destruct (due a (now w)) eqn:Ed; [|discriminate].
    injection Hs as <-. rewrite on_timeout_quiet by exact Hp.
    right. right. right. right. exists t, a, rest. auto.
  - rewrite Hc in Hs. discriminate.
  - rewrite Hc in Hs. discriminate.
Qed.

(** An invariant of quiet worlds that the five steps keep holds in every
    reachable world. *)
Lemma reachable_induction n (P : World -> Prop) :
  P initial ->
  (forall w d l c componentId o,
     quiet w -> P w -> _workSet (this w) = Some o ->
     JSObject.hasOwnProperty componentId o = false ->
     P (armed (recorded d l c componentId o w))) ->
  (forall w, quiet w -> P w -> P (exec finish w)) ->
  (forall w ms, quiet w -> P w -> P (with_now (now w + ms)%N w)) ->
  (forall w t a rest,
     quiet w -> P w -> take (is_timer t) (timers w) = Some (a, rest) ->
     due a (now w) = true -> P (fired n (with_timers rest w))) ->
  forall es w, run n es initial = Some w -> P w.
Proof.
  intros H0 Hrender Hfinish Helapse Hfire es.
  assert (Hgen : forall w0, quiet w0 -> P w0 ->
                   forall w, run n es w0 = Some w -> P w).
  { induction es as [|e es IH]; simpl; intros w0 Hq HP w Hr.
    - injection Hr as <-. exact HP.
    - destruct (step n e w0) as [w1|] eqn:E; [|discriminate].
      apply (IH w1); [eapply step_quiet; eassumption | | exact Hr].
      destruct (step_quiet_cases n e w0 w1 Hq E)
        as [->|[(d & l & c & k & o & Ho & Hh & ->)
               |[->|[(ms & ->)|(t & a & rest & Ht & Hd & ->)]]]]; eauto. }
  intros w. apply Hgen; [apply initial_quiet | exact H0].
Qed.

Lemma armed_frame w :
  deferreds (armed w) = deferreds w /\
  _workSet (this (armed w)) = _workSet (this w) /\
  _document (this (armed w)) = _document (this w) /\
  _pixmapRenderers (this (armed w)) = _pixmapRenderers (this w) /\
  next_op (armed w) = next_op w /\
  now (armed w) = now w.
Proof. unfold armed. destruct (_changeTimer (this w)); simpl; repeat split. Qed.

Lemma fired_frame n w :
  deferreds (fired n w) = deferreds w /\
  _workSet (this (fired n w)) = _workSet (this w) /\
  _document (this (fired n w)) = _document (this w) /\
  _pixmapRenderers (this (fired n w)) = _pixmapRenderers (this w) /\
  next_op (fired n w) = next_op w /\
  timers (fired n w) = timers w.
Proof. unfold fired. destruct (MAX_JOBS n <=? 0)%nat; simpl; repeat split. Qed.

Lemma finish_frame w :
  deferreds (exec finish w) = deferreds w /\
  _workSet (this (exec finish w)) = Some JSObject.empty /\
  _document (this (exec finish w)) = _document (this w) /\
  _pixmapRenderers (this (exec finish w)) = _pixmapRenderers (this w) /\
  next_op (exec finish w) = next_op w /\
  timers (exec finish w) = timers w /\
  _changeTimer (this (exec finish w)) = _changeTimer (this w).
Proof.
  rewrite finish_world.
  destruct (_document (this w)) eqn:E; simpl; rewrite ?E; repeat split.
Qed.

Lemma reachable_deferreds n es w :
  run n es initial = Some w ->
  Forall (fun s => s = Pending) (deferreds w) /\ jobs_have_their_deferreds w.
Proof.
  revert es w.
  apply (reachable_induction n
           (fun w => Forall (fun s => s = Pending) (deferreds w) /\
                     jobs_have_their_deferreds w)).
  - split; [constructor|]. intros o H. discriminate.
  - intros w d l c componentId o _ [Hall Hjobs] Ho Hh.
    destruct (Hjobs o Ho) as [Hlt Hinj].
    destruct (armed_frame (recorded d l c componentId o w)) as (Hd & Hws & _).
    unfold jobs_have_their_deferreds. rewrite Hd, Hws. simpl. split.
    + apply Forall_app. split; [exact Hall | repeat constructor].
    + intros o' Ho'. injection Ho' as <-. rewrite length_app. simpl. split.
      * intros k job. destruct (N.eq_dec k componentId) as [->|Hne].
        -- rewrite get_set_same. intros H. injection H as <-. simpl. lia.
        -- rewrite get_set_other by exact Hne. intros H. apply Hlt in H. lia.
      * intros k k' job job'.
        destruct (N.eq_dec k componentId) as [->|Hne];
          destruct (N.eq_dec k' componentId) as [->|Hne']; auto.
        -- rewrite get_set_same, get_set_other by exact Hne'.
           intros H H'. injection H as <-. apply Hlt in H'. simpl. lia.
        -- rewrite get_set_same, get_set_other by exact Hne.
           intros H H'. injection H' as <-. apply Hlt in H. simpl. lia.
        -- rewrite !get_set_other by assumption. apply Hinj.
  - intros w _ [Hall Hjobs].
    destruct (finish_frame w) as (Hd & Hws & _).
    unfold jobs_have_their_deferreds. rewrite Hd, Hws. split; [exact Hall|].
    intros o Ho. injection Ho as <-. split; intros; discriminate.
  - intros w ms _ H. exact H.
  - intros w t a rest _ [Hall Hjobs] _ _.
    destruct (fired_frame n (with_timers rest w)) as (Hd & Hws & _).
    unfold jobs_have_their_deferreds. rewrite Hd, Hws. auto.
Qed.

(** X16: in every world a program can reach, every deferred that [render]
    has created is still pending; each job in [_workSet] holds a deferred
    of the store, and no two jobs share one.  So no promise returned by
    [render] is ever settled. *)
Theorem X16_no_promise_is_ever_settled n es w :
  run n es initial = Some w ->
  (forall q s, deferred_state q w = Some s -> s = Pending) /\
  (forall o k job,
     _workSet (this w) = Some o -> JSObject.get k o = Some job ->
     deferred_state (deferred job) w = Some Pending) /\
  (forall o k k' job job',
     _workSet (this w) = Some o ->
     JSObject.get k o = Some job -> JSObject.get k' o = Some job' ->
     deferred job = deferred job' -> k = k').
Proof.
  intros Hr. destruct (reachable_deferreds n es w Hr) as [Hall Hjobs].
  rewrite Forall_forall in Hall. unfold deferred_state.
  split; [|split].
  - intros q s H. apply Hall. eapply nth_error_In, H.
  - intros o k job Ho Hg. destruct (Hjobs o Ho) as [Hlt _].
    apply Hlt in Hg.
    destruct (nth_error (deferreds w) (deferred job)) as [s|] eqn:E.
    + f_equal. apply Hall. eapply nth_error_In, E.
    + apply nth_error_None in E. lia.
  - intros o k k' job job' Ho. destruct (Hjobs o Ho) as [_ Hinj]. apply Hinj.
Qed.

Lemma X16_no_promise_is_ever_settled_witness :
  let w := after 2 (scenario_ABC ++ [Call_cancel 2; Elapse 5000]) initial in
  (forall q s, deferred_state q w = Some s -> s = Pending) /\
  (forall o k job,
     _workSet (this w) = Some o -> JSObject.get k o = Some job ->
     deferred_state (deferred job) w = Some Pending) /\
  (forall o k k' job job',
     _workSet (this w) = Some o ->
     JSObject.get k o = Some job -> JSObject.get k' o = Some job' ->
     deferred job = deferred job' -> k = k').
Proof.
  apply (X16_no_promise_is_ever_settled 2
           (scenario_ABC ++ [Call_cancel 2; Elapse 5000])
           (after 2 (scenario_ABC ++ [Call_cancel 2; Elapse 5000]) initial)).
  vm_compute. reflexivity.
Defined.

Lemma reachable_own_effects n es w :
  run n es initial = Some w ->
  forallb own_effect (map snd (trace w)) = true /\
  _document (this w) = None /\
  _pixmapRenderers (this w) = JSObject.empty /\
  next_op w = 0%nat.
Proof.
  revert es w.
  apply (reachable_induction n
           (fun w => forallb own_effect (map snd (trace w)) = true /\
                     _document (this w) = None /\
                     _pixmapRenderers (this w) = JSObject.empty /\
                     next_op w = 0%nat)).
  - auto.
  - intros w d l c componentId o _ (Ht & Hd & Hp & Ho') _ _.
    unfold armed. destruct (_changeTimer (this (recorded d l c componentId o w)));
      simpl; auto.
  - intros w _ (Ht & Hd & Hp & Ho'). rewrite finish_world, Hd. simpl. auto.
  - intros w ms _ H. exact H.
  - intros w t a rest _ (Ht & Hd & Hp & Ho') _ _. unfold fired.
    destruct (MAX_JOBS n <=? 0)%nat; simpl; auto.
Qed.

(** X17: a manager that a program can reach has never called the
    generator or a renderer and has created no renderer: the only
    effects in its history are [setTimeout] with the delay of 1000 ms,
    entries into the drain and the log line "Rendering quiesced.". *)
Theorem X17_no_external_call_is_ever_made n es w :
  run n es initial = Some w ->
  forallb own_effect (map snd (trace w)) = true /\
  _pixmapRenderers (this w) = JSObject.empty /\
  next_op w = 0%nat.
Proof.
  intros Hr. destruct (reachable_own_effects n es w Hr) as (H1 & _ & H2 & H3).
  auto.
Qed.

Lemma X17_no_external_call_is_ever_made_witness :
  let w := after 2 (scenario_ABC ++ [Call_cancel 2; Elapse 5000]) initial in
  forallb own_effect (map snd (trace w)) = true /\
  _pixmapRenderers (this w) = JSObject.empty /\
  next_op w = 0%nat.
Proof.
  apply (X17_no_external_call_is_ever_made 2
           (scenario_ABC ++ [Call_cancel 2; Elapse 5000])
           (after 2 (scenario_ABC ++ [Call_cancel 2; Elapse 5000]) initial)).
  vm_compute. reflexivity.
Defined.

Lemma reachable_handle_matches n es w :
  (0 < MAX_JOBS n)%nat ->
  run n es initial = Some w -> handle_matches_timer w.
Proof.
  intros Hn. revert es w.
  apply (reachable_induction n handle_matches_timer); unfold handle_matches_timer.
  - reflexivity.
  - intros w d l c componentId o _ H _ _. unfold armed. simpl.
    destruct (_changeTimer (this w)) eqn:E; simpl; rewrite ?E; [exact H|].
    rewrite H. simpl. eauto.
  - intros w _ H. destruct (finish_frame w) as (_ & _ & _ & _ & _ & -> & ->).
    exact H.
  - intros w ms _ H. exact H.
  - intros w t a rest _ H Ht _. unfold fired.
    apply Nat.leb_gt in Hn. rewrite Hn. simpl.
    destruct (_changeTimer (this w)).
    + destruct H as (a0 & H & _). rewrite H in Ht.
      apply take_singleton in Ht. apply Ht.
    + rewrite H in Ht. discriminate.
Qed.

(** X18: on a host with at least one core, in every world a program can
    reach [_changeTimer] is set exactly while a timer is armed, and it is
    that timer's handle.  So after every call of [render] that returns,
    one timer with the delay of 1000 ms is armed: a drain is always
    scheduled after a submission. *)
Theorem X18_a_drain_is_scheduled_after_each_submission n es w :
  (0 < MAX_JOBS n)%nat ->
  run n es initial = Some w ->
  handle_matches_timer w /\
  forall d l c componentId q w',
    render d l c componentId w = (Return q, w') ->
    exists a, timers w' = [a] /\
              _changeTimer (this w') = Some (timer_handle a) /\
              timer_delay a = CHANGE_DELAY.
Proof.
  intros Hn Hr. pose proof (reachable_handle_matches n es w Hn Hr) as H.
  split; [exact H|]. intros d l c componentId q w' Hrender.
  destruct (_workSet (this w)) as [o|] eqn:Ho;
    [|rewrite render_null_workSet in Hrender by exact Ho; discriminate].
  destruct (JSObject.hasOwnProperty componentId o) eqn:Hh;
    [rewrite (render_duplicate d l c componentId w o Ho Hh) in Hrender;
     discriminate|].
  rewrite (render_outcome d l c componentId w o Ho Hh) in Hrender.
  injection Hrender as _ <-. unfold handle_matches_timer in H.
  unfold armed. simpl.
  destruct (_changeTimer (this w)) eqn:E; simpl; rewrite ?E.
  - destruct H as (a & H1 & H2 & H3). exists a. rewrite H2. auto.
  - rewrite H. simpl. eauto.
Qed.

Lemma X18_a_drain_is_scheduled_after_each_submission_witness :
  let w := after 2 scenario_ABC initial in
  handle_matches_timer w /\
  forall d l c componentId q w',
    render d l c componentId w = (Return q, w') ->
    exists a, timers w' = [a] /\
              _changeTimer (this w') = Some (timer_handle a) /\
              timer_delay a = CHANGE_DELAY.
Proof.
  apply (X18_a_drain_is_scheduled_after_each_submission 2 scenario_ABC
           (after 2 scenario_ABC initial)).
  - vm_compute. lia.
  - vm_compute. reflexivity.
Defined.

Lemma reachable_without_cores n es w :
  MAX_JOBS n = 0%nat ->
  run n es initial = Some w ->
  (_changeTimer (this w) = None /\ timers w = [] /\
   count_effects is_setTimeout w = 0%nat /\ count_effects is_drain w = 0%nat) \/
  (_changeTimer (this w) <> None /\ count_effects is_setTimeout w = 1%nat /\
   ((exists a, timers w = [a]) /\ count_effects is_drain w = 0%nat \/
    timers w = [] /\ count_effects is_drain w = 1%nat)).
Proof.
  intros Hn. revert es w.
  apply (reachable_induction n
    (fun w =>
       (_changeTimer (this w) = None /\ timers w = [] /\
        count_effects is_setTimeout w = 0%nat /\
        count_effects is_drain w = 0%nat) \/
       (_changeTimer (this w) <> None /\ count_effects is_setTimeout w = 1%nat /\
        ((exists a, timers w = [a]) /\ count_effects is_drain w = 0%nat \/
         timers w = [] /\ count_effects is_drain w = 1%nat)))).
  - left. repeat split.
  - intros w d l c componentId o _ H _ _. unfold armed. simpl.
    unfold count_effects in *.
    destruct (_changeTimer (this w)) eqn:E; simpl; rewrite ?E.
    + destruct H as [(H & _)|H]; [congruence|]. right. exact H.
    + destruct H as [(_ & Ht & Hs & Hd)|(H & _)]; [|congruence].
      right. rewrite Ht, Hs, Hd. simpl.
      split; [discriminate|]. split; [reflexivity|]. left. eauto.
  - intros w _ H. rewrite finish_world.
    destruct (_document (this w)); exact H.
  - intros w ms _ H. exact H.
  - intros w t a rest _ H Ht _. unfold fired. rewrite Hn. simpl.
    destruct H as [(_ & H & _)|(Hc & Hs & [((a0 & H) & Hd)|(H & _)])];
      try (rewrite H in Ht; discriminate).
    rewrite H in Ht. apply take_singleton in Ht. destruct Ht as [_ ->].
    right. unfold count_effects in *. simpl. rewrite Hs, Hd. auto.
Qed.

(** X19: on a host for which [os.cpus()] is empty, [MAX_JOBS] is 0 and
    the drain returns at its guard without clearing the timer handle: in
    every world a program can reach the timer has been armed at most
    once and the drain has run at most once, and once it has run the
    handle stays set with no timer armed, so no later submission is ever
    followed by a drain. *)
Theorem X19_without_cores_the_timer_is_armed_once n es w :
  MAX_JOBS n = 0%nat ->
  run n es initial = Some w ->
  (count_effects is_setTimeout w <= 1)%nat /\
  (count_effects is_drain w <= 1)%nat /\
  (count_effects is_drain w = 1%nat ->
   _changeTimer (this w) <> None /\ timers w = [] /\
   forall d l c componentId,
     timers (exec (render d l c componentId) w) = []).
Proof.
  intros Hn Hr.
  destruct (reachable_without_cores n es w Hn Hr)
    as [(Hc & Ht & Hs & Hd)|(Hc & Hs & [((a & Ht) & Hd)|(Ht & Hd)])];
    rewrite Hs, Hd; (split; [lia|]); (split; [lia|]); try discriminate.
  intros _. split; [exact Hc|]. split; [exact Ht|].
  intros d l c componentId.
  destruct (render_timer d l c componentId w)
    as [_ [(_ & Hti & _) | (Hnone & _)]]; congruence.
Qed.

Lemma X19_without_cores_the_timer_is_armed_once_witness :
  let w := after 0 scenario_ABC initial in
  (count_effects is_setTimeout w <= 1)%nat /\
  (count_effects is_drain w <= 1)%nat /\
  (count_effects is_drain w = 1%nat ->
   _changeTimer (this w) <> None /\ timers w = [] /\
   forall d l c componentId,
     timers (exec (render d l c componentId) w) = []).
Proof.
  apply (X19_without_cores_the_timer_is_armed_once 0 scenario_ABC
           (after 0 scenario_ABC initial)).
  - reflexivity.
  - vm_compute. reflexivity.
Defined.
